(** * Keyboard controls of the Axis viewer (src/controls/keyboard.js)

    A shallow embedding of [KeyboardController]: the key-state table, the
    handler registry, the key-up release timer and the per-tick dispatch,
    followed by the properties of the controller that the specification
    states.

    Conventions of the embedding.
    - Key codes are JavaScript numbers that hold integers; they are [Z].
    - Pan speeds and pan deltas are JavaScript numbers; they are rationals
      [Q].  The default bindings only negate them and scale them by two.
    - A JavaScript object used as a table ([state.keystate],
      [state.handlers], [constraints.keys]) is a [gmap] keyed by the code.
    - A handler registered with [use] is a function that reads the
      controller state and issues pan commands; the key state, the
      registry and the release timer belong to the controller and are not
      written by handlers.
    - Calls that leave this file (the base [AxisController], [scope.emit],
      [e.preventDefault], [this.pan]) are recorded, in order, in the
      controller's [trace].
    - [setTimeout]/[clearTimeout] act on an explicit table of pending
      timers; a timer that fires is a step of its own ([fire]).
    - A [throw] is an [outcome] that carries the error and the controller
      as it was when the error was raised. *)

From Stdlib Require Import ZArith QArith List String Bool Lia.
From stdpp Require Import base option gmap strings list fin_maps.

Local Open Scope Z_scope.
Local Open Scope string_scope.

(** ** JavaScript values that reach the public entry points *)

Inductive jsval : Type :=
  | JUndefined
  | JNull
  | JBool (b : bool)
  | JNum (n : Z)
  | JStr (s : string)
  | JObject.

Inductive jstype : Type :=
  | TUndefined | TObject | TBoolean | TNumber | TString.

Definition typeof (v : jsval) : jstype :=
  match v with
  | JUndefined => TUndefined
  | JNull => TObject
  | JBool _ => TBoolean
  | JNum _ => TNumber
  | JStr _ => TString
  | JObject => TObject
  end.

Inductive Error : Type :=
  | TypeError (message : string).

(** ** Data of the controller *)

(** A DOM key event; only [e.which] is read. *)
Record KeyEvent : Type := mkKeyEvent { which : Z }.

(** The argument of [this.pan]. *)
Record PanDelta : Type := mkPan { pan_x : Q; pan_y : Q }.

(** The argument handed to a key handler: [{name: name, code: code}];
    [name] is [null] when [keyname] finds nothing. *)
Record KeyData : Type := mkKeyData { name : option string; code : Z }.

(** Calls to collaborators outside this file, and the invocation of a
    registered handler. *)
Inductive Effect : Type :=
  | BaseConstruct                        (* AxisController.call(this, scope, document) *)
  | Bind (event : string)                (* this.events.bind(event) *)
  | BaseReset                            (* AxisController.prototype.reset.call(this) *)
  | BaseUpdate                           (* AxisController.prototype.update.call(this) *)
  | Pan (delta : PanDelta)               (* this.pan(delta) *)
  | PreventDefault (e : KeyEvent)        (* e.preventDefault() *)
  | Emit (event : string) (e : KeyEvent) (* this.scope.emit(event, e) *)
  | Invoke (handler : nat) (data : KeyData). (* handle.call(this, data) *)

(** [this.state], without the handler registry (kept in [Controller]). *)
Record State : Type := mkState {
  isEnabled : bool;
  forceUpdate : bool;
  keyupTimeout : option nat;
  keynames : list string;
  keystate : gmap Z bool;
  panSpeed : Q
}.

(** A registered handler.  [hid] stands for the identity of the function
    object; [hbody] is what a call does to the controller: it reads
    [this.state] and issues pan commands.  The key state, the registry and
    the release timer are owned by the controller and are not written by
    handlers. *)
Record Handler : Type := mkHandler {
  hid : nat;
  hbody : KeyData -> State -> list PanDelta
}.

(** [scope.projections.constraints]: may be missing, and may lack [keys]. *)
Record Constraints : Type := mkConstraints { keys : option (gmap Z bool) }.

(** What the controller reads of the scene. *)
Record Scope : Type := mkScope {
  forceFocus : bool;
  isFocused : bool;
  controllerUpdateTimeout : Z;
  constraints : option Constraints
}.

(** A pending [setTimeout]. *)
Record Timer : Type := mkTimer { delay : Z; callback : State -> State }.

Record Timers : Type := mkTimers {
  next_id : nat;
  pending : gmap nat Timer
}.

Record Controller : Type := mkController {
  scope : Scope;
  state : State;
  handlers : gmap Z (list Handler);
  timers : Timers;
  trace : list Effect
}.

Inductive outcome : Type :=
  | Ok (c : Controller)
  | Throw (err : Error) (c : Controller).

Definition bind (o : outcome) (f : Controller -> outcome) : outcome :=
  match o with
  | Ok c => f c
  | Throw err c => Throw err c
  end.

Notation "o >>= f" := (bind o f) (at level 50, left associativity).

(** The controller an outcome leaves behind. *)
Definition controller_of (o : outcome) : Controller :=
  match o with Ok c => c | Throw _ c => c end.

Definition throws (o : outcome) : bool :=
  match o with Ok _ => false | Throw _ _ => true end.

(** ** Field updates *)

Definition with_state (f : State -> State) (c : Controller) : Controller :=
  mkController (scope c) (f (state c)) (handlers c) (timers c) (trace c).

Definition set_keystate (ks : gmap Z bool) (s : State) : State :=
  mkState (isEnabled s) (forceUpdate s) (keyupTimeout s) (keynames s) ks (panSpeed s).

Definition set_forceUpdate (b : bool) (s : State) : State :=
  mkState (isEnabled s) b (keyupTimeout s) (keynames s) (keystate s) (panSpeed s).

Definition set_keyupTimeout (h : option nat) (s : State) : State :=
  mkState (isEnabled s) (forceUpdate s) h (keynames s) (keystate s) (panSpeed s).

Definition set_isEnabled (b : bool) (s : State) : State :=
  mkState b (forceUpdate s) (keyupTimeout s) (keynames s) (keystate s) (panSpeed s).

Definition set_panSpeed (q : Q) (s : State) : State :=
  mkState (isEnabled s) (forceUpdate s) (keyupTimeout s) (keynames s) (keystate s) q.

Definition set_handlers (hs : gmap Z (list Handler)) (c : Controller) : Controller :=
  mkController (scope c) (state c) hs (timers c) (trace c).

Definition set_scope (sc : Scope) (c : Controller) : Controller :=
  mkController sc (state c) (handlers c) (timers c) (trace c).

Definition set_timers (tm : Timers) (c : Controller) : Controller :=
  mkController (scope c) (state c) (handlers c) tm (trace c).

Definition log (es : list Effect) (c : Controller) : Controller :=
  mkController (scope c) (state c) (handlers c) (timers c) (trace c ++ es).

(** ** Timers *)

(** [clearTimeout(handle)]: nothing happens for [undefined] or for a
    handle that is no longer pending. *)
Definition clearTimeout (handle : option nat) (c : Controller) : Controller :=
  match handle with
  | None => c
  | Some id => set_timers (mkTimers (next_id (timers c)) (delete id (pending (timers c)))) c
  end.

(** [setTimeout(fn, ms)]: a fresh handle and the controller with the timer
    pending. *)
Definition setTimeout (fn : State -> State) (ms : Z) (c : Controller) : nat * Controller :=
  let id := next_id (timers c) in
  (id, set_timers (mkTimers (S id) (<[id := mkTimer ms fn]> (pending (timers c)))) c).

(** A pending timer fires: it leaves the table and its callback runs. *)
Definition fire (id : nat) (c : Controller) : option Controller :=
  match pending (timers c) !! id with
  | Some t =>
      Some (with_state (callback t)
              (set_timers (mkTimers (next_id (timers c)) (delete id (pending (timers c)))) c))
  | None => None
  end.

(** ** The module-level key code map and [keyname] *)

Definition keycodes : list (string * Z) :=
  [ ("esc", 27); ("space", 32); ("left", 37); ("up", 38); ("right", 39); ("down", 40) ].

Definition keycodes_lookup (nm : string) : option Z :=
  snd <$> List.find (fun p => String.eqb nm (fst p)) keycodes.

(** [keyname(code)]: the first name of the map whose code is [code]. *)
Fixpoint keyname_in (table : list (string * Z)) (k : Z) : option string :=
  match table with
  | [] => None
  | (nm, v) :: rest => if Z.eqb k v then Some nm else keyname_in rest k
  end.

Definition keyname (k : Z) : option string := keyname_in keycodes k.

(** The value of [state.keynames]. *)
Definition nav_keynames : list string := ["up"; "down"; "left"; "right"].

(** [array.indexOf(x)] *)
Fixpoint indexOf_from {A : Type} `{EqDecision A} (i : Z) (x : A) (l : list A) : Z :=
  match l with
  | [] => -1
  | a :: rest => if decide (a = x) then i else indexOf_from (i + 1) x rest
  end.

Definition indexOf {A : Type} `{EqDecision A} (x : A) (l : list A) : Z :=
  indexOf_from 0 x l.

(** ** The controller *)

Section KeyboardController.

(** [require('keycode')], applied to a string: the numeric code of a key
    name, or [None] when the result is not a number. *)
Variable keycode : string -> option Z.

(** [constants.DEFAULT_KEY_PAN_SPEED] *)
Variable DEFAULT_KEY_PAN_SPEED : Q.

Definition of_keycode (r : option Z) : jsval :=
  match r with Some n => JNum n | None => JUndefined end.

(** [key = 'string' == typeof key ? keycode(key) : key] *)
Definition resolve_key (key : jsval) : jsval :=
  match key with
  | JStr s => of_keycode (keycode s)
  | _ => key
  end.

(** [state.supported] and [state.keycodes]: [keynames.map(keycode)]. *)
Definition supported (s : State) : list (option Z) := map keycode (keynames s).

Definition state_keycodes (s : State) : list (option Z) := map keycode (keynames s).

(** [state.isKeydown]: some entry of [keystate] is [true]. *)
Definition isKeydown (s : State) : bool :=
  existsb (fun kv => Bool.eqb true (snd kv)) (map_to_list (keystate s)).

(** [this.state.keystate[code]] read as a condition. *)
Definition held (s : State) (k : Z) : bool :=
  match keystate s !! k with Some b => b | None => false end.

(** [constraints && constraints.keys && true == constraints.keys[key]] *)
Definition constrained (sc : Scope) (k : Z) : bool :=
  match constraints sc with
  | Some cs =>
      match keys cs with
      | Some ks => match ks !! k with Some b => Bool.eqb true b | None => false end
      | None => false
      end
  | None => false
  end.

Definition isKeySupported (key : jsval) (c : Controller) : bool :=
  match resolve_key key with
  | JNum k =>
      if constrained (scope c) k then false
      else if Z.eqb (-1) (indexOf (Some k) (supported (state c))) then false
      else true
  | _ => false
  end.

(** [forceFocus || isFocused] *)
Definition focused (sc : Scope) : bool := forceFocus sc || isFocused sc.

Definition onkeydown (e : KeyEvent) (c : Controller) : Controller :=
  let isFocused := focused (scope c) in
  let code := which e in
  let c := clearTimeout (keyupTimeout (state c)) c in
  if Bool.eqb false (isEnabled (state c)) then c
  else
    if isFocused then
      if Bool.eqb false (isKeySupported (JNum code) c) then c
      else
        let c := with_state (fun s => set_keystate (<[code := true]> (keystate s)) s) c in
        let c := log [PreventDefault e] c in
        log [Emit "keydown" e] c
    else log [Emit "keydown" e] c.

(** The callback of the release timer. *)
Definition release : State -> State := set_forceUpdate false.

Definition onkeyup (e : KeyEvent) (c : Controller) : Controller :=
  let isFocused := focused (scope c) in
  let code := which e in
  let c := with_state (fun s => set_keystate (<[code := false]> (keystate s)) s) c in
  if isFocused then
    let c := with_state (set_forceUpdate true) c in
    let c := clearTimeout (keyupTimeout (state c)) c in
    let '(id, c) := setTimeout release (controllerUpdateTimeout (scope c)) c in
    with_state (set_keyupTimeout (Some id)) c
  else c.

Definition reset (c : Controller) : Controller :=
  let c := clearTimeout (keyupTimeout (state c)) c in
  let c := log [BaseReset] c in
  with_state (fun s => set_keystate ((fun _ => false) <$> keystate s) s) c.

(** [handle.call(this, data)] *)
Definition call (handle : Handler) (data : KeyData) (c : Controller) : Controller :=
  log (Invoke (hid handle) data :: map Pan (hbody handle data (state c))) c.

(** [handlers[code].forEach(...)] *)
Fixpoint forEach_handle (k : Z) (l : list Handler) (c : Controller) : Controller :=
  match l with
  | [] => c
  | handle :: rest =>
      let name := keyname k in
      let c := if held (state c) k then call handle (mkKeyData name k) c else c in
      forEach_handle k rest c
  end.

(** [handlers[code]]: the list registered for a code; [undefined] when the
    code is not a number or has no list. *)
Definition handlers_of (c : Controller) (oc : option Z) : option (Z * list Handler) :=
  match oc with
  | Some k => match handlers c !! k with Some l => Some (k, l) | None => None end
  | None => None
  end.

(** [this.state.keycodes.forEach(...)]; when [handlers[code]] is
    [undefined], [.forEach] raises. *)
Fixpoint forEach_code (codes : list (option Z)) (c : Controller) : outcome :=
  match codes with
  | [] => Ok c
  | oc :: rest =>
      match handlers_of c oc with
      | Some (k, l) => forEach_code rest (forEach_handle k l c)
      | None => Throw (TypeError "Cannot read property 'forEach' of undefined") c
      end
  end.

Definition update (c : Controller) : outcome :=
  if Bool.eqb false (isKeydown (state c)) then Ok c
  else forEach_code (state_keycodes (state c)) c >>= (fun c => Ok (log [BaseUpdate] c)).

Definition use (key : jsval) (fn : Handler) (c : Controller) : outcome :=
  match resolve_key key with
  | JNum k =>
      let l : list Handler := match handlers c !! k with Some l => l | None => [] end in
      Ok (set_handlers (<[k := (l ++ [fn])%list]> (handlers c)) c)
  | _ => Throw (TypeError "Expecting string or number.") c
  end.

(** The four bindings installed by the constructor. *)
Definition up_handler : Handler :=
  mkHandler 0 (fun _ s => [mkPan 0 (- panSpeed s / 2)]).
Definition down_handler : Handler :=
  mkHandler 1 (fun _ s => [mkPan 0 (panSpeed s / 2)]).
Definition left_handler : Handler :=
  mkHandler 2 (fun _ s => [mkPan (- panSpeed s * 2) 0]).
Definition right_handler : Handler :=
  mkHandler 3 (fun _ s => [mkPan (panSpeed s * 2) 0]).

(** [new KeyboardController(scope)].  The base constructor decides
    [isEnabled] and [forceUpdate]; [first_id] is the next free timer
    handle of the page. *)
Definition KeyboardController (sc : Scope) (enabled force : bool) (first_id : nat)
  : outcome :=
  let s := mkState enabled force None nav_keynames ∅ DEFAULT_KEY_PAN_SPEED in
  let c := mkController sc s ∅ (mkTimers first_id ∅)
             [BaseConstruct; Bind "keydown"; Bind "keyup"] in
  let c := reset c in
  use (JStr "up") up_handler c
    >>= use (JStr "down") down_handler
    >>= use (JStr "left") left_handler
    >>= use (JStr "right") right_handler.

(** ** The controller as a transition system *)

Inductive Event : Type :=
  | EKeyDown (e : KeyEvent)
  | EKeyUp (e : KeyEvent)
  | EUpdate
  | EReset
  | EUse (key : jsval) (fn : Handler)
  | EFire (id : nat)                (* a pending timer elapses *)
  | EScene (sc : Scope)             (* the scene changes focus, constraints, timeout *)
  | EEnable (b : bool)              (* enable() / disable() of the base *)
  | EPanSpeed (q : Q).              (* state.panSpeed = q *)

Inductive step : Controller -> Event -> Controller -> Prop :=
  | step_keydown c e : step c (EKeyDown e) (onkeydown e c)
  | step_keyup c e : step c (EKeyUp e) (onkeyup e c)
  | step_update c : step c EUpdate (controller_of (update c))
  | step_reset c : step c EReset (reset c)
  | step_use c key fn : step c (EUse key fn) (controller_of (use key fn c))
  | step_fire c id c' : fire id c = Some c' -> step c (EFire id) c'
  | step_scene c sc : step c (EScene sc) (set_scope sc c)
  | step_enable c b : step c (EEnable b) (with_state (set_isEnabled b) c)
  | step_panSpeed c q : step c (EPanSpeed q) (with_state (set_panSpeed q) c).

Inductive reachable : Controller -> Prop :=
  | reachable_new sc enabled force first_id c :
      KeyboardController sc enabled force first_id = Ok c -> reachable c
  | reachable_step c ev c' : reachable c -> step c ev c' -> reachable c'.

End KeyboardController.

(** ** Notions used by the statements *)

(** What a call added to the trace: the effects of [c'] after those of [c]. *)
Definition emitted (c c' : Controller) : list Effect :=
  drop (length (trace c)) (trace c').

(** The pan commands of a trace, in order. *)
Definition pans_of (t : list Effect) : list PanDelta :=
  flat_map (fun ef => match ef with Pan d => [d] | _ => [] end) t.

(** The handlers invoked for key [k] in a trace, in order, with the data
    they were given. *)
Definition invoked_for (k : Z) (t : list Effect) : list (nat * KeyData) :=
  flat_map (fun ef =>
              match ef with
              | Invoke h d => if Z.eqb (code d) k then [(h, d)] else []
              | _ => []
              end) t.

(** The notifications sent to the scene's event bus, in order. *)
Definition emits_of (t : list Effect) : list (string * KeyEvent) :=
  flat_map (fun ef => match ef with Emit ev e => [(ev, e)] | _ => [] end) t.

(** The pending timers once [clearTimeout(handle)] has run. *)
Definition cleared (handle : option nat) (pd : gmap nat Timer) : gmap nat Timer :=
  match handle with Some id => delete id pd | None => pd end.

(** What [handlers[code].forEach(...)] adds to the trace in state [s]: when
    the key is held, each handler of the list is invoked in turn and issues
    its pan commands. *)
Definition handle_effects (s : State) (k : Z) (l : list Handler) : list Effect :=
  if held s k then
    flat_map (fun h => Invoke (hid h) (mkKeyData (keyname k) k)
                         :: map Pan (hbody h (mkKeyData (keyname k) k) s)) l
  else [].

Definition code_effects (s : State) (hs : gmap Z (list Handler)) (codes : list (option Z))
  : list Effect :=
  flat_map (fun oc =>
              match oc with
              | Some k => match hs !! k with Some l => handle_effects s k l | None => [] end
              | None => []
              end) codes.

(** The release timer is the only timer of the controller: whatever is
    pending is the timer [state.keyupTimeout] refers to. *)
Definition timer_inv (c : Controller) : Prop :=
  forall id, is_Some (pending (timers c) !! id) -> keyupTimeout (state c) = Some id.

(** The [keycode] package gives the navigation names the codes of the
    module's own [keycodes] map. *)
Definition resolves_navigation_keys (keycode : string -> option Z) : Prop :=
  forall nm, nm ∈ nav_keynames -> keycode nm = keycodes_lookup nm.

(** Every supported key has a handler list. *)
Definition bound (keycode : string -> option Z) (c : Controller) : Prop :=
  forall nm, nm ∈ keynames (state c) ->
    exists k, keycode nm = Some k /\ is_Some (handlers c !! k).

(** What holds of every controller the constructor built, whatever
    happened to it since. *)
Definition wf (keycode : string -> option Z) (c : Controller) : Prop :=
  keynames (state c) = nav_keynames
  /\ timer_inv c
  /\ (forall id t, pending (timers c) !! id = Some t -> callback t = release)
  /\ bound keycode c.

(** Events other than a key-up on a focused scene and [reset()]. *)
Definition quiet (c : Controller) (ev : Event) : bool :=
  match ev with
  | EKeyUp _ => negb (focused (scope c))
  | EReset => false
  | _ => true
  end.

Inductive quiet_run (keycode : string -> option Z)
  : Controller -> list Event -> Controller -> Prop :=
  | quiet_nil c : quiet_run keycode c [] c
  | quiet_cons c ev c' evs c'' :
      quiet c ev = true ->
      step keycode c ev c' ->
      quiet_run keycode c' evs c'' ->
      quiet_run keycode c (ev :: evs) c''.

(** The registry the constructor leaves when the navigation names resolve
    to the codes of the [keycodes] map. *)
Definition default_registry : gmap Z (list Handler) :=
  <[39 := [right_handler]]>
    (<[37 := [left_handler]]> (<[40 := [down_handler]]> (<[38 := [up_handler]]> ∅))).

(** ** A concrete controller

    The name lookup is the module's own [keycodes] map, the scene is
    focused with a 500 ms release timeout and no constraints. *)

Definition example_scope : Scope := mkScope false true 500 None.

Definition example_controller : Controller :=
  controller_of (KeyboardController keycodes_lookup 5 example_scope true false 7).

Definition example_disabled : Controller :=
  with_state (set_isEnabled false) example_controller.

Definition key_up_arrow : KeyEvent := mkKeyEvent 38.
Definition key_escape : KeyEvent := mkKeyEvent 27.

(** The up arrow is down. *)
Definition example_pressed : Controller :=
  onkeydown keycodes_lookup key_up_arrow example_controller.

(** The up arrow went down and up again: the release timer is pending. *)
Definition example_released : Controller := onkeyup key_up_arrow example_pressed.

(** Two handlers of a client; the second pans. *)
Definition first_handler : Handler := mkHandler 10 (fun _ _ => []).
Definition second_handler : Handler := mkHandler 11 (fun _ s => [mkPan (panSpeed s) 0]).

(** Both are registered for "up", and then the up arrow goes down. *)
Definition example_extended : Controller :=
  controller_of
    (use keycodes_lookup (JStr "up") first_handler example_controller
       >>= use keycodes_lookup (JStr "up") second_handler).

Definition example_extended_pressed : Controller :=
  onkeydown keycodes_lookup key_up_arrow example_extended.

(** The release timer of [example_released] has fired. *)
Definition example_fired : Controller :=
  match fire 7 example_released with
  | Some c => c
  | None => example_released
  end.

(** ** Basic facts *)

Lemma indexOf_from_ge {A : Type} `{EqDecision A} (x : A) (l : list A) (i : Z) :
  0 <= i -> indexOf_from i x l = -1 \/ i <= indexOf_from i x l.
Proof.
  revert i. induction l as [|a l IH]; intros i Hi; simpl.
  - by left.
  - destruct (decide (a = x)); [right; lia|].
    destruct (IH (i + 1) ltac:(lia)) as [->|Hle]; [by left|right; lia].
Qed.

Lemma indexOf_from_absent {A : Type} `{EqDecision A} (x : A) (l : list A) (i : Z) :
  0 <= i -> indexOf_from i x l = -1 <-> x ∉ l.
Proof.
  revert i. induction l as [|a l IH]; intros i Hi; simpl.
  - split; [intros _; apply not_elem_of_nil|done].
  - destruct (decide (a = x)) as [->|Hne].
    + split; [lia|]. intros Hx. exfalso. apply Hx. left.
    + rewrite IH by lia. rewrite not_elem_of_cons. split; [|tauto].
      intros Hx. split; [congruence|done].
Qed.

Lemma indexOf_absent {A : Type} `{EqDecision A} (x : A) (l : list A) :
  indexOf x l = -1 <-> x ∉ l.
Proof. apply indexOf_from_absent. lia. Qed.

Lemma isKeydown_false (s : State) :
  isKeydown s = false <-> forall k, keystate s !! k ≠ Some true.
Proof.
  unfold isKeydown. rewrite <- not_true_iff_false, existsb_exists. split.
  - intros Hno k Hk. apply Hno. exists (k, true). split; [|done].
    apply list_elem_of_In, elem_of_map_to_list. exact Hk.
  - intros Hno [[k b] [Hin Hb]]. simpl in Hb. destruct b; [|done].
    apply list_elem_of_In, elem_of_map_to_list in Hin. by apply (Hno k).
Qed.

Lemma emitted_app (c c' : Controller) (es : list Effect) :
  trace c' = (trace c ++ es)%list -> emitted c c' = es.
Proof. unfold emitted. intros ->. by rewrite drop_app_length. Qed.

Lemma emitted_same (c c' : Controller) : trace c' = trace c -> emitted c c' = [].
Proof. unfold emitted. intros ->. by rewrite drop_all. Qed.

Lemma bind_Ok (o : outcome) (f : Controller -> outcome) (c : Controller) :
  o >>= f = Ok c -> exists c1, o = Ok c1 /\ f c1 = Ok c.
Proof. destruct o as [c1|err c1]; simpl; [eauto|done]. Qed.

Section Properties.

Variable keycode : string -> option Z.
Variable DEFAULT_KEY_PAN_SPEED : Q.

Lemma isKeySupported_number (k : Z) (c : Controller) :
  isKeySupported keycode (JNum k) c
  = negb (constrained (scope c) k) && bool_decide (Some k ∈ supported keycode (state c)).
Proof.
  unfold isKeySupported. cbn [resolve_key].
  destruct (constrained (scope c) k); cbn [negb andb]; [done|].
  destruct (Z.eqb_spec (-1) (indexOf (Some k) (supported keycode (state c)))) as [Heq|Hne].
  - symmetry in Heq. apply indexOf_absent in Heq.
    by rewrite (bool_decide_eq_false_2 _ Heq).
  - destruct (decide (Some k ∈ supported keycode (state c))) as [Hin|Hn].
    + by rewrite (bool_decide_eq_true_2 _ Hin).
    + apply indexOf_absent in Hn. congruence.
Qed.

Lemma clearTimeout_state h c : state (clearTimeout h c) = state c.
Proof. by destruct h. Qed.

Lemma clearTimeout_scope h c : scope (clearTimeout h c) = scope c.
Proof. by destruct h. Qed.

Lemma clearTimeout_trace h c : trace (clearTimeout h c) = trace c.
Proof. by destruct h. Qed.

Lemma clearTimeout_handlers h c : handlers (clearTimeout h c) = handlers c.
Proof. by destruct h. Qed.

Lemma isKeySupported_clearTimeout key h c :
  isKeySupported keycode key (clearTimeout h c) = isKeySupported keycode key c.
Proof.
  unfold isKeySupported.
  by rewrite clearTimeout_state, clearTimeout_scope.
Qed.

(** [onkeydown], one case per path through the function. *)
Lemma onkeydown_cases e c :
  let c1 := clearTimeout (keyupTimeout (state c)) c in
  onkeydown keycode e c =
    if isEnabled (state c) then
      if focused (scope c) then
        if isKeySupported keycode (JNum (which e)) c then
          log [Emit "keydown" e]
            (log [PreventDefault e]
               (with_state (fun s => set_keystate (<[which e := true]> (keystate s)) s) c1))
        else c1
      else log [Emit "keydown" e] c1
    else c1.
Proof.
  unfold onkeydown. cbv zeta.
  rewrite clearTimeout_state, isKeySupported_clearTimeout.
  destruct (isEnabled (state c)); simpl; [|done].
  destruct (focused (scope c)); [|done].
  by destruct (isKeySupported keycode (JNum (which e)) c).
Qed.

(** C1.  A key-down records the key as held exactly when the controller
    is enabled, the scene is focused ([forceFocus] or [isFocused]), the
    code is one of the supported keycode codes and the constraint table does not
    mark it [true]; on every other path the key state is left as it was.
    In particular a code outside the supported keycode codes is never recorded. *)
Theorem onkeydown_records_supported_keys (e : KeyEvent) (c : Controller) :
  keystate (state (onkeydown keycode e c))
  = (if isEnabled (state c) && focused (scope c)
        && bool_decide (Some (which e) ∈ supported keycode (state c))
        && negb (constrained (scope c) (which e))
     then <[which e := true]> (keystate (state c))
     else keystate (state c))
  /\ (Some (which e) ∉ supported keycode (state c) ->
      keystate (state (onkeydown keycode e c)) = keystate (state c)).
Proof.
  assert (Hks : keystate (state (onkeydown keycode e c))
    = (if isEnabled (state c) && focused (scope c)
        && bool_decide (Some (which e) ∈ supported keycode (state c))
        && negb (constrained (scope c) (which e))
       then <[which e := true]> (keystate (state c))
       else keystate (state c))).
  { rewrite onkeydown_cases. cbv zeta. rewrite isKeySupported_number.
    destruct (isEnabled (state c)); simpl; [|by rewrite clearTimeout_state].
    destruct (focused (scope c)); simpl; [|by rewrite clearTimeout_state].
    destruct (bool_decide (Some (which e) ∈ supported keycode (state c)));
      destruct (constrained (scope c) (which e)); simpl;
      by rewrite clearTimeout_state. }
  split; [exact Hks|].
  intros Hn. rewrite Hks, (bool_decide_eq_false_2 _ Hn).
  by rewrite andb_false_r.
Qed.

Lemma clearTimeout_timers h c :
  timers (clearTimeout h c) = mkTimers (next_id (timers c)) (cleared h (pending (timers c))).
Proof. destruct h; [done|]. by destruct c as [? ? ? [? ?] ?]. Qed.

(** [onkeyup], one case per path through the function. *)
Lemma onkeyup_cases e c :
  onkeyup e c =
    if focused (scope c) then
      mkController (scope c)
        (mkState (isEnabled (state c)) true (Some (next_id (timers c)))
           (keynames (state c)) (<[which e := false]> (keystate (state c)))
           (panSpeed (state c)))
        (handlers c)
        (mkTimers (S (next_id (timers c)))
           (<[next_id (timers c) := mkTimer (controllerUpdateTimeout (scope c)) release]>
              (cleared (keyupTimeout (state c)) (pending (timers c)))))
        (trace c)
    else with_state (fun s => set_keystate (<[which e := false]> (keystate s)) s) c.
Proof.
  destruct c as [sc [en fu kt kn ks ps] hs [nx pd] tr].
  unfold onkeyup. simpl. destruct (focused sc); [|done]. by destruct kt.
Qed.

(** C5.  A key-up records the key as not held, whatever the focus, the
    supported keycode codes, the constraints and the earlier events were. *)
Theorem onkeyup_releases_key (e : KeyEvent) (c : Controller) :
  keystate (state (onkeyup e c)) = <[which e := false]> (keystate (state c))
  /\ keystate (state (onkeyup e c)) !! which e = Some false
  /\ held (state (onkeyup e c)) (which e) = false.
Proof.
  assert (Hks : keystate (state (onkeyup e c))
                = <[which e := false]> (keystate (state c))).
  { rewrite onkeyup_cases. destruct (focused (scope c)); reflexivity. }
  unfold held. rewrite Hks, lookup_insert_eq. done.
Qed.

(** C6.  When no entry of the key state is [true], [update()] returns at
    once: no handler is invoked, no pan command is issued, and the
    controller is left as it was. *)
Theorem update_without_key_down (c : Controller) :
  (forall k, keystate (state c) !! k ≠ Some true) ->
  isKeydown (state c) = false
  /\ update keycode c = Ok c
  /\ emitted c (controller_of (update keycode c)) = [].
Proof.
  intros Hno. apply isKeydown_false in Hno.
  assert (Hup : update keycode c = Ok c) by (unfold update; by rewrite Hno).
  rewrite Hup. simpl. split; [done|]. split; [done|]. by apply emitted_same.
Qed.

(** C8.  [use] raises a [TypeError] exactly when the key, once a string
    has been resolved through the name lookup, is not a number.  When it
    raises, the controller (and so the registry) is as before; otherwise
    the handler is appended to the list of the resolved code, the list
    being created when the code had none, and nothing else changes. *)
Theorem use_type_error_iff (key : jsval) (fn : Handler) (c : Controller) :
  (throws (use keycode key fn c) = true <-> typeof (resolve_key keycode key) ≠ TNumber)
  /\ (typeof (resolve_key keycode key) ≠ TNumber ->
      use keycode key fn c = Throw (TypeError "Expecting string or number.") c)
  /\ (forall k, resolve_key keycode key = JNum k ->
      exists c', use keycode key fn c = Ok c'
        /\ handlers c' !! k
           = Some (match handlers c !! k with Some l => l | None => [] end ++ [fn])%list
        /\ (forall k', k' ≠ k -> handlers c' !! k' = handlers c !! k')
        /\ state c' = state c /\ scope c' = scope c
        /\ timers c' = timers c /\ trace c' = trace c).
Proof.
  unfold use. split; [|split].
  - destruct (resolve_key keycode key); simpl; split; done.
  - destruct (resolve_key keycode key); simpl; done.
  - intros k ->. eexists. split; [reflexivity|]. simpl.
    rewrite lookup_insert_eq. split; [done|]. split; [|done].
    intros k' Hne. by rewrite lookup_insert_ne.
Qed.

(** *** What each operation leaves alone *)

Lemma forEach_handle_frame k l c :
  scope (forEach_handle k l c) = scope c
  /\ state (forEach_handle k l c) = state c
  /\ handlers (forEach_handle k l c) = handlers c
  /\ timers (forEach_handle k l c) = timers c
  /\ trace (forEach_handle k l c) = (trace c ++ handle_effects (state c) k l)%list.
Proof.
  unfold handle_effects. revert c. induction l as [|h l IH]; intros c.
  - simpl. destruct (held (state c) k); by rewrite app_nil_r.
  - cbn [forEach_handle]. cbv zeta.
    destruct (IH (if held (state c) k
                  then call h (mkKeyData (keyname k) k) c else c))
      as (Hsc & Hst & Hhs & Htm & Htr).
    rewrite Hsc, Hst, Hhs, Htm, Htr. clear IH Hsc Hst Hhs Htm Htr.
    destruct (held (state c) k) eqn:Hheld; simpl; rewrite ?Hheld.
    + repeat split. by rewrite <- !app_assoc.
    + done.
Qed.

Lemma forEach_code_frame codes c :
  scope (controller_of (forEach_code codes c)) = scope c
  /\ state (controller_of (forEach_code codes c)) = state c
  /\ handlers (controller_of (forEach_code codes c)) = handlers c
  /\ timers (controller_of (forEach_code codes c)) = timers c.
Proof.
  revert c. induction codes as [|oc codes IH]; intros c; [done|].
  cbn [forEach_code].
  destruct (handlers_of c oc) as [[k l]|]; [|done].
  destruct (IH (forEach_handle k l c)) as (Hsc & Hst & Hhs & Htm).
  destruct (forEach_handle_frame k l c) as (Hsc' & Hst' & Hhs' & Htm' & _).
  rewrite Hsc, Hst, Hhs, Htm. done.
Qed.

(** With a handler list for every code, the dispatch does not raise. *)
Lemma forEach_code_bound codes c :
  (forall oc, oc ∈ codes -> exists k, oc = Some k /\ is_Some (handlers c !! k)) ->
  exists c', forEach_code codes c = Ok c'
    /\ scope c' = scope c /\ state c' = state c
    /\ handlers c' = handlers c /\ timers c' = timers c
    /\ trace c' = (trace c ++ code_effects (state c) (handlers c) codes)%list.
Proof.
  unfold code_effects. revert c.
  induction codes as [|oc codes IH]; intros c Hall.
  - exists c. simpl. by rewrite app_nil_r.
  - destruct (Hall oc) as (k & -> & [l Hl]); [left|].
    cbn [forEach_code flat_map handlers_of]. rewrite Hl.
    destruct (forEach_handle_frame k l c) as (Hsc & Hst & Hhs & Htm & Htr).
    destruct (IH (forEach_handle k l c)) as (c' & Hok & Hsc' & Hst' & Hhs' & Htm' & Htr').
    { intros oc Hoc. rewrite Hhs. apply Hall. by right. }
    exists c'. rewrite Hok, Hsc', Hst', Hhs', Htm', Htr', Hsc, Hst, Hhs, Htm, Htr.
    repeat split. by rewrite <- app_assoc.
Qed.

Lemma update_frame c :
  scope (controller_of (update keycode c)) = scope c
  /\ state (controller_of (update keycode c)) = state c
  /\ handlers (controller_of (update keycode c)) = handlers c
  /\ timers (controller_of (update keycode c)) = timers c.
Proof.
  unfold update. destruct (Bool.eqb false (isKeydown (state c))); [done|].
  pose proof (forEach_code_frame (state_keycodes keycode (state c)) c) as H.
  destruct (forEach_code (state_keycodes keycode (state c)) c); exact H.
Qed.

Lemma use_Ok key fn c c' :
  use keycode key fn c = Ok c' ->
  exists k, resolve_key keycode key = JNum k
    /\ c' = set_handlers
              (<[k := (match handlers c !! k with Some l => l | None => [] end ++ [fn])%list]>
                 (handlers c)) c.
Proof.
  unfold use. destruct (resolve_key keycode key); try discriminate.
  intros [= <-]. eauto.
Qed.

Lemma use_frame key fn c :
  scope (controller_of (use keycode key fn c)) = scope c
  /\ state (controller_of (use keycode key fn c)) = state c
  /\ timers (controller_of (use keycode key fn c)) = timers c
  /\ trace (controller_of (use keycode key fn c)) = trace c
  /\ (forall k, is_Some (handlers c !! k) ->
       is_Some (handlers (controller_of (use keycode key fn c)) !! k)).
Proof.
  unfold use. destruct (resolve_key keycode key); simpl; try done.
  repeat split. intros k Hk. apply lookup_insert_is_Some.
  destruct (decide (n = k)); [by left|by right].
Qed.

Lemma resolve_key_name nm k :
  resolve_key keycode (JStr nm) = JNum k -> keycode nm = Some k.
Proof. simpl. destruct (keycode nm); simpl; congruence. Qed.

(** *** The invariant of constructed controllers *)

Lemma wf_frame c c' :
  keynames (state c') = keynames (state c) ->
  keyupTimeout (state c') = keyupTimeout (state c) ->
  timers c' = timers c ->
  (forall k, is_Some (handlers c !! k) -> is_Some (handlers c' !! k)) ->
  wf keycode c -> wf keycode c'.
Proof.
  intros Hkn Hkt Htm Hhs (Hn & Hinv & Hcb & Hb). unfold wf, timer_inv, bound.
  rewrite Hkn, Hkt, Htm. repeat split; try done.
  intros nm Hnm. destruct (Hb nm Hnm) as (k & Hk & Hl). eauto.
Qed.

Lemma wf_cleared c nx :
  wf keycode c ->
  wf keycode (set_timers (mkTimers nx (cleared (keyupTimeout (state c)) (pending (timers c)))) c).
Proof.
  intros (Hn & Hinv & Hcb & Hb). unfold wf, timer_inv, bound. simpl.
  repeat split; try done.
  - intros id [t Ht]. destruct (keyupTimeout (state c)) as [h|] eqn:Hh; simpl in Ht.
    + apply lookup_delete_Some in Ht as [Hne Ht].
      specialize (Hinv id (mk_is_Some _ _ Ht)). congruence.
    + specialize (Hinv id (mk_is_Some _ _ Ht)). congruence.
  - intros id t Ht. apply (Hcb id).
    destruct (keyupTimeout (state c)); simpl in Ht; [|done].
    by apply lookup_delete_Some in Ht as [_ Ht].
Qed.

(** Once the handle has been cleared nothing is pending. *)
Lemma timer_inv_cleared c :
  timer_inv c -> cleared (keyupTimeout (state c)) (pending (timers c)) = ∅.
Proof.
  intros Hinv. apply map_eq. intros id. rewrite lookup_empty.
  destruct (cleared _ _ !! id) as [t|] eqn:Ht; [exfalso|done].
  destruct (keyupTimeout (state c)) as [h|] eqn:Hh; simpl in Ht.
  - apply lookup_delete_Some in Ht as [Hne Ht].
    specialize (Hinv id (mk_is_Some _ _ Ht)). congruence.
  - specialize (Hinv id (mk_is_Some _ _ Ht)). congruence.
Qed.

Lemma use_name nm fn c c' :
  use keycode (JStr nm) fn c = Ok c' ->
  scope c' = scope c /\ state c' = state c /\ timers c' = timers c
  /\ trace c' = trace c
  /\ (forall k, is_Some (handlers c !! k) -> is_Some (handlers c' !! k))
  /\ exists k, keycode nm = Some k /\ is_Some (handlers c' !! k).
Proof.
  intros Hok. pose proof (use_frame (JStr nm) fn c) as H. rewrite Hok in H.
  simpl in H. destruct H as (Hsc & Hst & Htm & Htr & Hmono).
  repeat split; try done.
  apply use_Ok in Hok as (k & Hk & ->). exists k.
  split; [by apply resolve_key_name|]. simpl. rewrite lookup_insert_eq. eauto.
Qed.

Lemma KeyboardController_Ok sc enabled force first_id c :
  KeyboardController keycode DEFAULT_KEY_PAN_SPEED sc enabled force first_id = Ok c ->
  scope c = sc
  /\ state c = mkState enabled force None nav_keynames ∅ DEFAULT_KEY_PAN_SPEED
  /\ timers c = mkTimers first_id ∅
  /\ trace c = [BaseConstruct; Bind "keydown"; Bind "keyup"; BaseReset]
  /\ wf keycode c.
Proof.
  unfold KeyboardController. cbv zeta. intros Hok.
  apply bind_Ok in Hok as (c3 & Hok & H4).
  apply bind_Ok in Hok as (c2 & Hok & H3).
  apply bind_Ok in Hok as (c1 & H1 & H2).
  apply use_name in H1 as (Hsc1 & Hst1 & Htm1 & Htr1 & _ & (ku & Hku & Hu1)).
  apply use_name in H2 as (Hsc2 & Hst2 & Htm2 & Htr2 & Hm2 & (kd & Hkd & Hd2)).
  apply use_name in H3 as (Hsc3 & Hst3 & Htm3 & Htr3 & Hm3 & (kl & Hkl & Hl3)).
  apply use_name in H4 as (Hsc4 & Hst4 & Htm4 & Htr4 & Hm4 & (kr & Hkr & Hr4)).
  assert (Hst : state c = mkState enabled force None nav_keynames ∅ DEFAULT_KEY_PAN_SPEED).
  { rewrite Hst4, Hst3, Hst2, Hst1. unfold reset, with_state, set_keystate. simpl.
    by rewrite fmap_empty. }
  assert (Htm : timers c = mkTimers first_id ∅).
  { by rewrite Htm4, Htm3, Htm2, Htm1. }
  split; [by rewrite Hsc4, Hsc3, Hsc2, Hsc1|]. split; [done|]. split; [done|].
  split; [by rewrite Htr4, Htr3, Htr2, Htr1|].
  unfold wf, timer_inv, bound. rewrite Hst, Htm. simpl.
  split; [done|]. split; [|split].
  - intros id [t Ht]. by rewrite lookup_empty in Ht.
  - intros id t Ht. by rewrite lookup_empty in Ht.
  - intros nm Hnm. unfold nav_keynames in Hnm.
    rewrite !elem_of_cons in Hnm.
    destruct Hnm as [->|[->|[->|[->|Hnil]]]]; [| | | |by apply elem_of_nil in Hnil].
    + exists ku. auto.
    + exists kd. auto.
    + exists kl. auto.
    + exists kr. auto.
Qed.

(** Every operation keeps the invariant. *)
Lemma step_wf c ev c' : step keycode c ev c' -> wf keycode c -> wf keycode c'.
Proof.
  intros Hstep Hwf. destruct Hstep as [c e|c e|c|c|c key fn|c id c' Hfire|c sc|c b|c q].
  - (* onkeydown *)
    rewrite onkeydown_cases. cbv zeta.
    pose proof (wf_cleared c (next_id (timers c)) Hwf) as Hcl.
    assert (Heq : clearTimeout (keyupTimeout (state c)) c
                  = set_timers (mkTimers (next_id (timers c))
                      (cleared (keyupTimeout (state c)) (pending (timers c)))) c).
    { destruct c as [sc [en fu [h|] kn ks ps] hs [nx pd] tr]; reflexivity. }
    rewrite Heq.
    destruct (isEnabled (state c)); [|done].
    destruct (focused (scope c)).
    + destruct (isKeySupported keycode (JNum (which e)) c); [|done].
      revert Hcl. by apply wf_frame.
    + revert Hcl. by apply wf_frame.
  - (* onkeyup *)
    rewrite onkeyup_cases. destruct (focused (scope c)).
    + destruct Hwf as (Hn & Hinv & Hcb & Hb). unfold wf, timer_inv, bound. simpl.
      rewrite (timer_inv_cleared c Hinv). repeat split; try done.
      * intros id [t Ht]. apply lookup_insert_Some in Ht as [[<- _]|[_ Ht]]; [done|].
        by rewrite lookup_empty in Ht.
      * intros id t Ht. apply lookup_insert_Some in Ht as [[_ <-]|[_ Ht]]; [done|].
        by rewrite lookup_empty in Ht.
    + revert Hwf. by apply wf_frame.
  - (* update *)
    destruct (update_frame c) as (_ & Hst & Hhs & Htm).
    revert Hwf. apply wf_frame; rewrite ?Hst, ?Hhs; done.
  - (* reset *)
    pose proof (wf_cleared c (next_id (timers c)) Hwf) as Hcl.
    assert (Heq : clearTimeout (keyupTimeout (state c)) c
                  = set_timers (mkTimers (next_id (timers c))
                      (cleared (keyupTimeout (state c)) (pending (timers c)))) c).
    { destruct c as [sc [en fu [h|] kn ks ps] hs [nx pd] tr]; reflexivity. }
    unfold reset. rewrite Heq. revert Hcl. by apply wf_frame.
  - (* use *)
    destruct (use_frame key fn c) as (_ & Hst & Htm & _ & Hhs).
    revert Hwf. apply wf_frame; rewrite ?Hst; done.
  - (* a timer fires *)
    unfold fire in Hfire. destruct (pending (timers c) !! id) as [t|] eqn:Ht; [|done].
    injection Hfire as <-.
    destruct Hwf as (Hn & Hinv & Hcb & Hb).
    rewrite (Hcb id t Ht). unfold wf, timer_inv, bound. simpl.
    repeat split; try done.
    + intros id' [t' Ht']. apply lookup_delete_Some in Ht' as [_ Ht'].
      apply Hinv. eauto.
    + intros id' t' Ht'. apply lookup_delete_Some in Ht' as [_ Ht'].
      by apply (Hcb id').
  - revert Hwf. by apply wf_frame.
  - revert Hwf. by apply wf_frame.
  - revert Hwf. by apply wf_frame.
Qed.

Lemma reachable_wf c : reachable keycode DEFAULT_KEY_PAN_SPEED c -> wf keycode c.
Proof.
  induction 1 as [sc enabled force first_id c Hnew|c ev c' _ IH Hstep].
  - by apply KeyboardController_Ok in Hnew as (_ & _ & _ & _ & Hwf).
  - by apply (step_wf c ev).
Qed.

Lemma timer_inv_size c : timer_inv c -> (size (pending (timers c)) <= 1)%nat.
Proof.
  intros Hinv. pose proof (timer_inv_cleared c Hinv) as Hcl.
  destruct (keyupTimeout (state c)) as [h|]; simpl in Hcl.
  - destruct (pending (timers c) !! h) as [t|] eqn:Ht.
    + rewrite <- (insert_delete_id _ _ _ Ht), Hcl, insert_empty, map_size_singleton. lia.
    + rewrite delete_id in Hcl by done. rewrite Hcl, map_size_empty. lia.
  - rewrite Hcl, map_size_empty. lia.
Qed.

Lemma onkeydown_frame e c :
  scope (onkeydown keycode e c) = scope c
  /\ handlers (onkeydown keycode e c) = handlers c
  /\ forceUpdate (state (onkeydown keycode e c)) = forceUpdate (state c)
  /\ keyupTimeout (state (onkeydown keycode e c)) = keyupTimeout (state c)
  /\ timers (onkeydown keycode e c) = timers (clearTimeout (keyupTimeout (state c)) c).
Proof.
  rewrite onkeydown_cases. cbv zeta.
  destruct (isEnabled (state c)), (focused (scope c)),
    (isKeySupported keycode (JNum (which e)) c); simpl;
    rewrite ?clearTimeout_scope, ?clearTimeout_handlers, ?clearTimeout_state; done.
Qed.

(** An event other than a focused key-up or a reset neither schedules a
    timer nor writes [forceUpdate]. *)
Lemma quiet_step c ev c' :
  pending (timers c) = ∅ -> quiet c ev = true -> step keycode c ev c' ->
  pending (timers c') = ∅ /\ forceUpdate (state c') = forceUpdate (state c).
Proof.
  intros Hpd Hq Hstep.
  destruct Hstep as [c e|c e|c|c|c key fn|c id c' Hfire|c sc|c b|c q]; simpl in Hq.
  - destruct (onkeydown_frame e c) as (_ & _ & Hfu & _ & Htm).
    rewrite Htm, clearTimeout_timers, Hpd. simpl. split; [|done].
    destruct (keyupTimeout (state c)); simpl; [apply delete_empty|done].
  - rewrite onkeyup_cases. apply negb_true_iff in Hq. by rewrite Hq.
  - destruct (update_frame c) as (_ & Hst & _ & Htm). by rewrite Hst, Htm.
  - done.
  - destruct (use_frame key fn c) as (_ & Hst & Htm & _). by rewrite Hst, Htm.
  - unfold fire in Hfire. by rewrite Hpd, lookup_empty in Hfire.
  - done.
  - done.
  - done.
Qed.

Lemma quiet_run_keeps c evs c' :
  quiet_run keycode c evs c' -> pending (timers c) = ∅ ->
  pending (timers c') = ∅ /\ forceUpdate (state c') = forceUpdate (state c).
Proof.
  induction 1 as [c|c ev c' evs c'' Hq Hstep _ IH]; intros Hpd; [done|].
  destruct (quiet_step c ev c' Hpd Hq Hstep) as [Hpd' Hfu].
  destruct (IH Hpd') as [Hpd'' Hfu']. split; [done|congruence].
Qed.

(** C4.  A key-up on a focused scene sets [forceUpdate], cancels the
    pending release timer and schedules one new timer, for the scene's
    [controllerUpdateTimeout], whose firing clears [forceUpdate].  At
    every moment at most one release timer is pending, and a second
    focused key-up replaces the timer of the first, which can then no
    longer fire. *)
Theorem keyup_schedules_one_release_timer (c : Controller) (e e2 : KeyEvent) :
  reachable keycode DEFAULT_KEY_PAN_SPEED c ->
  focused (scope c) = true ->
  let c1 := onkeyup e c in
  let id1 := next_id (timers c) in
  let c2 := onkeyup e2 c1 in
  let id2 := next_id (timers c1) in
  (size (pending (timers c)) <= 1)%nat
  /\ forceUpdate (state c1) = true
  /\ keyupTimeout (state c1) = Some id1
  /\ pending (timers c1)
     = {[ id1 := mkTimer (controllerUpdateTimeout (scope c)) release ]}
  /\ (exists c', fire id1 c1 = Some c'
        /\ forceUpdate (state c') = false /\ pending (timers c') = ∅)
  /\ id2 ≠ id1
  /\ forceUpdate (state c2) = true
  /\ keyupTimeout (state c2) = Some id2
  /\ pending (timers c2)
     = {[ id2 := mkTimer (controllerUpdateTimeout (scope c)) release ]}
  /\ fire id1 c2 = None.
Proof.
  intros Hreach Hfoc c1 id1 c2 id2.
  pose proof (reachable_wf c Hreach) as Hwf.
  assert (Hwf1 : wf keycode c1) by (apply (step_wf c (EKeyUp e)); [constructor|done]).
  destruct Hwf as (_ & Hinv & _). destruct Hwf1 as (_ & Hinv1 & _).
  assert (Hc1 : c1 = mkController (scope c)
        (mkState (isEnabled (state c)) true (Some id1)
           (keynames (state c)) (<[which e := false]> (keystate (state c)))
           (panSpeed (state c)))
        (handlers c)
        (mkTimers (S id1)
           {[ id1 := mkTimer (controllerUpdateTimeout (scope c)) release ]})
        (trace c)).
  { subst c1. rewrite onkeyup_cases, Hfoc, (timer_inv_cleared c Hinv).
    by rewrite insert_empty. }
  assert (Hfoc1 : focused (scope c1) = true) by (by rewrite Hc1).
  assert (Hc2 : pending (timers c2)
                = {[ id2 := mkTimer (controllerUpdateTimeout (scope c)) release ]}
                /\ forceUpdate (state c2) = true
                /\ keyupTimeout (state c2) = Some id2).
  { subst c2. rewrite onkeyup_cases, Hfoc1, (timer_inv_cleared c1 Hinv1).
    simpl. rewrite insert_empty. subst id2. by rewrite Hc1. }
  destruct Hc2 as (Hpd2 & Hfu2 & Hkt2).
  assert (Hne : id2 ≠ id1) by (subst id2; rewrite Hc1; simpl; lia).
  split; [by apply timer_inv_size|].
  split; [by rewrite Hc1|]. split; [by rewrite Hc1|]. split; [by rewrite Hc1|].
  split.
  { rewrite Hc1. unfold fire. simpl. rewrite lookup_singleton_eq.
    eexists. split; [reflexivity|]. simpl. split; [done|]. apply delete_singleton_eq. }
  split; [done|]. split; [done|]. split; [done|]. split; [done|].
  unfold fire. rewrite Hpd2, lookup_singleton_ne; done.
Qed.

(** C10.  Every key-down, on whatever path it then takes, first cancels
    the pending release timer and does not write [forceUpdate].  So once
    a key-down has arrived no timer is left to fire, and [forceUpdate]
    keeps its value through every later event until a key-up on a focused
    scene (or a reset) occurs. *)
Theorem keydown_cancels_release_timer (c : Controller) (e : KeyEvent) :
  reachable keycode DEFAULT_KEY_PAN_SPEED c ->
  let c1 := onkeydown keycode e c in
  timers c1 = timers (clearTimeout (keyupTimeout (state c)) c)
  /\ pending (timers c1) = ∅
  /\ forceUpdate (state c1) = forceUpdate (state c)
  /\ (forall id, fire id c1 = None)
  /\ (forall evs c2, quiet_run keycode c1 evs c2 ->
       forceUpdate (state c2) = forceUpdate (state c)
       /\ pending (timers c2) = ∅).
Proof.
  intros Hreach c1.
  destruct (reachable_wf c Hreach) as (_ & Hinv & _).
  destruct (onkeydown_frame e c) as (_ & _ & Hfu & _ & Htm).
  assert (Hpd : pending (timers c1) = ∅).
  { subst c1. rewrite Htm, clearTimeout_timers. simpl. by apply timer_inv_cleared. }
  split; [done|]. split; [done|]. split; [done|]. split.
  - intros id. unfold fire. by rewrite Hpd, lookup_empty.
  - intros evs c2 Hrun. destruct (quiet_run_keeps c1 evs c2 Hrun Hpd) as [Hpd2 Hfu2].
    split; [|done]. subst c1. congruence.
Qed.

(** *** The dispatch of [update] *)

Lemma pans_of_app t1 t2 : pans_of (t1 ++ t2) = (pans_of t1 ++ pans_of t2)%list.
Proof. apply flat_map_app. Qed.

Lemma pans_of_map_Pan l : pans_of (map Pan l) = l.
Proof. induction l as [|d l IH]; simpl; [done|]. by rewrite IH. Qed.

Lemma pans_of_handle_effects s k l :
  pans_of (handle_effects s k l)
  = if held s k then flat_map (fun h => hbody h (mkKeyData (keyname k) k) s) l else [].
Proof.
  unfold handle_effects. destruct (held s k); [|done].
  induction l as [|h l IH]; [done|].
  cbn [flat_map]. rewrite pans_of_app, IH. simpl. by rewrite pans_of_map_Pan.
Qed.

Lemma invoked_for_app k t1 t2 :
  invoked_for k (t1 ++ t2) = (invoked_for k t1 ++ invoked_for k t2)%list.
Proof. apply flat_map_app. Qed.

Lemma invoked_for_map_Pan k l : invoked_for k (map Pan l) = [].
Proof. by induction l. Qed.

Lemma invoked_for_handle_effects k s k' l :
  invoked_for k (handle_effects s k' l)
  = if held s k' && Z.eqb k' k
    then map (fun h => (hid h, mkKeyData (keyname k') k')) l else [].
Proof.
  unfold handle_effects. destruct (held s k'); [|done]. cbn [andb].
  induction l as [|h l IH]; [by destruct (Z.eqb k' k)|].
  cbn [flat_map]. rewrite invoked_for_app, IH.
  change (Invoke ?a ?b :: ?t) with ([Invoke a b] ++ t)%list.
  rewrite invoked_for_app, invoked_for_map_Pan, app_nil_r. simpl.
  by destruct (Z.eqb k' k).
Qed.

Lemma invoked_for_code_effects_absent k s hs codes :
  Some k ∉ codes -> invoked_for k (code_effects s hs codes) = [].
Proof.
  unfold code_effects. induction codes as [|oc codes IH]; intros Hk; [done|].
  apply not_elem_of_cons in Hk as [Hne Hk].
  cbn [flat_map]. rewrite invoked_for_app, (IH Hk), app_nil_r.
  destruct oc as [k'|]; [|done]. destruct (hs !! k') as [l|]; [|done].
  rewrite invoked_for_handle_effects.
  destruct (Z.eqb_spec k' k) as [->|_]; [done|]. by rewrite andb_false_r.
Qed.

Lemma invoked_for_code_effects k s hs codes l :
  NoDup codes -> Some k ∈ codes -> hs !! k = Some l -> held s k = true ->
  invoked_for k (code_effects s hs codes)
  = map (fun h => (hid h, mkKeyData (keyname k) k)) l.
Proof.
  intros Hnd Hin Hl Hheld. induction Hnd as [|oc codes Hoc Hnd IH].
  - by apply elem_of_nil in Hin.
  - unfold code_effects. cbn [flat_map]. fold (code_effects s hs codes).
    rewrite invoked_for_app. apply elem_of_cons in Hin as [<-|Hin].
    + rewrite Hl, invoked_for_handle_effects, Hheld, Z.eqb_refl. cbn [andb].
      by rewrite (invoked_for_code_effects_absent _ _ _ _ Hoc), app_nil_r.
    + rewrite (IH Hin).
      destruct oc as [k'|]; [|done]. destruct (hs !! k') as [l'|]; [|done].
      rewrite invoked_for_handle_effects.
      destruct (Z.eqb_spec k' k) as [->|_]; [done|]. by rewrite andb_false_r.
Qed.

Lemma held_isKeydown s k : held s k = true -> isKeydown s = true.
Proof.
  intros Hheld. apply not_false_iff_true. intros Hno.
  apply (proj1 (isKeydown_false s) Hno k). unfold held in Hheld.
  destruct (keystate s !! k) as [[|]|]; done.
Qed.

Lemma not_isKeydown_held s k : isKeydown s = false -> held s k = false.
Proof.
  intros Hno. destruct (held s k) eqn:Hheld; [|done].
  apply held_isKeydown in Hheld. congruence.
Qed.

(** [update] on a controller whose supported keys all have handlers. *)
Lemma update_bound c :
  isKeydown (state c) = true ->
  (forall oc, oc ∈ state_keycodes keycode (state c) ->
     exists k, oc = Some k /\ is_Some (handlers c !! k)) ->
  exists c', update keycode c = Ok c'
    /\ emitted c c'
       = (code_effects (state c) (handlers c) (state_keycodes keycode (state c))
            ++ [BaseUpdate])%list.
Proof.
  intros Hdown Hall. unfold update. rewrite Hdown. simpl.
  destruct (forEach_code_bound _ c Hall) as (c' & Hok & _ & _ & _ & _ & Htr).
  rewrite Hok. simpl. eexists. split; [reflexivity|].
  apply emitted_app. simpl. by rewrite Htr, <- app_assoc.
Qed.

Section Resolved.

Hypothesis Hres : resolves_navigation_keys keycode.

Lemma resolved_codes :
  keycode "up" = Some 38 /\ keycode "down" = Some 40
  /\ keycode "left" = Some 37 /\ keycode "right" = Some 39.
Proof.
  repeat split; rewrite Hres; try reflexivity; unfold nav_keynames;
    rewrite !elem_of_cons; auto 10.
Qed.

Lemma resolved_keycodes s :
  keynames s = nav_keynames ->
  state_keycodes keycode s = [Some 38; Some 40; Some 37; Some 39].
Proof.
  destruct resolved_codes as (Hu & Hd & Hl & Hr).
  intros Hkn. unfold state_keycodes. rewrite Hkn. simpl. by rewrite Hu, Hd, Hl, Hr.
Qed.

Lemma KeyboardController_resolved sc enabled force first_id :
  KeyboardController keycode DEFAULT_KEY_PAN_SPEED sc enabled force first_id
  = Ok (mkController sc
          (mkState enabled force None nav_keynames ∅ DEFAULT_KEY_PAN_SPEED)
          default_registry (mkTimers first_id ∅)
          [BaseConstruct; Bind "keydown"; Bind "keyup"; BaseReset]).
Proof.
  destruct resolved_codes as (Hu & Hd & Hl & Hr).
  unfold KeyboardController, use. cbn [resolve_key].
  rewrite Hu. simpl. rewrite Hd. simpl. rewrite Hl. simpl. rewrite Hr. simpl.
  unfold reset, with_state, set_keystate, set_handlers, log. simpl.
  rewrite fmap_empty. reflexivity.
Qed.

Lemma resolved_all_bound c :
  keynames (state c) = nav_keynames ->
  is_Some (handlers c !! 38) -> is_Some (handlers c !! 40) ->
  is_Some (handlers c !! 37) -> is_Some (handlers c !! 39) ->
  forall oc, oc ∈ state_keycodes keycode (state c) ->
    exists k, oc = Some k /\ is_Some (handlers c !! k).
Proof.
  intros Hkn H38 H40 H37 H39 oc. rewrite (resolved_keycodes _ Hkn).
  rewrite !elem_of_cons.
  intros [->|[->|[->|[->|Hnil]]]]; [eauto..|by apply elem_of_nil in Hnil].
Qed.

(** C2.  The constructor installs one binding per direction, and on a
    tick each held direction issues exactly one pan command: up (38)
    pans by [{x: 0, y: -panSpeed/2}], down (40) by
    [{x: 0, y: panSpeed/2}], left (37) by [{x: -panSpeed*2, y: 0}] and
    right (39) by [{x: panSpeed*2, y: 0}]. *)
Theorem default_bindings_pan_deltas (sc : Scope) (enabled force : bool) (first_id : nat) :
  exists c0,
    KeyboardController keycode DEFAULT_KEY_PAN_SPEED sc enabled force first_id = Ok c0
    /\ keycode "up" = Some 38 /\ keycode "down" = Some 40
    /\ keycode "left" = Some 37 /\ keycode "right" = Some 39
    /\ handlers c0 !! 38 = Some [up_handler]
    /\ handlers c0 !! 40 = Some [down_handler]
    /\ handlers c0 !! 37 = Some [left_handler]
    /\ handlers c0 !! 39 = Some [right_handler]
    /\ forall c,
         handlers c = handlers c0 ->
         keynames (state c) = keynames (state c0) ->
         exists c', update keycode c = Ok c'
           /\ pans_of (emitted c c')
              = ((if held (state c) 38
                  then [mkPan 0 (- panSpeed (state c) / 2)] else [])
                 ++ (if held (state c) 40
                     then [mkPan 0 (panSpeed (state c) / 2)] else [])
                 ++ (if held (state c) 37
                     then [mkPan (- panSpeed (state c) * 2) 0] else [])
                 ++ (if held (state c) 39
                     then [mkPan (panSpeed (state c) * 2) 0] else []))%list.
Proof.
  destruct resolved_codes as (Hu & Hd & Hl & Hr).
  assert (H38 : default_registry !! 38 = Some [up_handler]) by reflexivity.
  assert (H40 : default_registry !! 40 = Some [down_handler]) by reflexivity.
  assert (H37 : default_registry !! 37 = Some [left_handler]) by reflexivity.
  assert (H39 : default_registry !! 39 = Some [right_handler]) by reflexivity.
  eexists. split; [apply KeyboardController_resolved|]. simpl.
  do 8 (split; [done|]).
  intros c Hhs Hkn.
  destruct (isKeydown (state c)) eqn:Hdown.
  - destruct (update_bound c Hdown) as (c' & Hok & Hem).
    { apply resolved_all_bound; rewrite ?Hhs, ?H38, ?H40, ?H37, ?H39; eauto. }
    exists c'. split; [done|].
    rewrite Hem, (resolved_keycodes _ Hkn), Hhs. unfold code_effects.
    cbn [flat_map]. rewrite H38, H40, H37, H39.
    rewrite !pans_of_app, !pans_of_handle_effects. simpl.
    destruct (held (state c) 38), (held (state c) 40),
      (held (state c) 37), (held (state c) 39); reflexivity.
  - exists c. split; [unfold update; by rewrite Hdown|].
    rewrite emitted_same by done.
    by rewrite !(not_isKeydown_held _ _ Hdown).
Qed.

(** C7.  Two handlers registered with [use] for a supported key are
    appended, in that order, behind the handlers the key already had;
    nothing is replaced or reordered.  On every later tick on which the
    key is held, [update] invokes the whole list for that key, the two
    new handlers last and in the order of their registration. *)
Theorem use_twice_invokes_both_in_order
    (c : Controller) (key : jsval) (k : Z) (h1 h2 : Handler) :
  reachable keycode DEFAULT_KEY_PAN_SPEED c ->
  resolve_key keycode key = JNum k ->
  Some k ∈ supported keycode (state c) ->
  exists old c1 c2,
    handlers c !! k = Some old
    /\ use keycode key h1 c = Ok c1
    /\ use keycode key h2 c1 = Ok c2
    /\ handlers c2 = <[k := (old ++ [h1; h2])%list]> (handlers c)
    /\ forall c3,
         handlers c3 = handlers c2 ->
         keynames (state c3) = keynames (state c2) ->
         held (state c3) k = true ->
         exists c4, update keycode c3 = Ok c4
           /\ invoked_for k (emitted c3 c4)
              = map (fun h => (hid h, mkKeyData (keyname k) k)) (old ++ [h1; h2])%list.
Proof.
  intros Hreach Hkey Hsup.
  destruct (reachable_wf c Hreach) as (Hkn & _ & _ & Hb).
  assert (Hall : forall oc, oc ∈ state_keycodes keycode (state c) ->
            exists k', oc = Some k' /\ is_Some (handlers c !! k')).
  { intros oc Hoc. unfold state_keycodes in Hoc.
    apply list_elem_of_fmap in Hoc as (nm & -> & Hnm). by apply Hb. }
  destruct (Hall (Some k) Hsup) as (k' & [= <-] & [old Hold]).
  exists old.
  exists (set_handlers (<[k := (old ++ [h1])%list]> (handlers c)) c).
  exists (set_handlers (<[k := (old ++ [h1; h2])%list]> (handlers c)) c).
  split; [done|].
  split; [unfold use; by rewrite Hkey, Hold|].
  split.
  { unfold use. rewrite Hkey. simpl.
    by rewrite lookup_insert_eq, insert_insert_eq, <- app_assoc. }
  split; [done|]. simpl.
  intros c3 Hhs3 Hkn3 Hheld.
  destruct (update_bound c3 (held_isKeydown _ _ Hheld)) as (c4 & Hok & Hem).
  { intros oc Hoc. unfold state_keycodes in *. rewrite Hkn3 in Hoc.
    destruct (Hall oc Hoc) as (k' & -> & Hsome). exists k'. split; [done|].
    rewrite Hhs3. apply lookup_insert_is_Some.
    destruct (decide (k = k')); [by left|by right]. }
  exists c4. split; [done|].
  rewrite Hem, invoked_for_app. simpl. rewrite app_nil_r.
  assert (Hkn3' : keynames (state c3) = nav_keynames) by (by rewrite Hkn3).
  apply invoked_for_code_effects; try done.
  - rewrite (resolved_keycodes _ Hkn3').
    apply NoDup_ListNoDup. repeat constructor; simpl; intuition discriminate.
  - unfold state_keycodes. rewrite Hkn3. exact Hsup.
  - by rewrite Hhs3, lookup_insert_eq.
Qed.

(** C9 (as amended).  The exposed [keycodes] map names six keys: the
    four navigation keys and also [esc] and [space].  The supported
    codes are those the map gives the four navigation names (38, 40,
    37, 39); the codes of [esc] and [space] are not among them. *)
Theorem keycodes_table_and_supported (c : Controller) :
  reachable keycode DEFAULT_KEY_PAN_SPEED c ->
  (forall nm, is_Some (keycodes_lookup nm)
              <-> nm ∈ nav_keynames \/ nm = "esc" \/ nm = "space")
  /\ supported keycode (state c) = map keycodes_lookup nav_keynames
  /\ supported keycode (state c) = [Some 38; Some 40; Some 37; Some 39]
  /\ keycodes_lookup "esc" = Some 27
  /\ keycodes_lookup "space" = Some 32
  /\ (Some 27 ∉ supported keycode (state c))
  /\ (Some 32 ∉ supported keycode (state c)).
Proof.
  intros Hreach. destruct (reachable_wf c Hreach) as (Hkn & _).
  assert (Hsup : supported keycode (state c) = [Some 38; Some 40; Some 37; Some 39])
    by (by apply resolved_keycodes).
  split.
  { intros nm. unfold keycodes_lookup, nav_keynames, keycodes. simpl.
    rewrite !elem_of_cons.
    destruct (String.eqb_spec nm "esc") as [->|?]; [simpl; split; eauto|].
    destruct (String.eqb_spec nm "space") as [->|?]; [simpl; split; eauto|].
    destruct (String.eqb_spec nm "left") as [->|?]; [simpl; split; eauto 10|].
    destruct (String.eqb_spec nm "up") as [->|?]; [simpl; split; eauto 10|].
    destruct (String.eqb_spec nm "right") as [->|?]; [simpl; split; eauto 10|].
    destruct (String.eqb_spec nm "down") as [->|?]; [simpl; split; eauto 10|].
    simpl. split; [by intros [? ?]|].
    intros [[?|[?|[?|[?|Hnil]]]]|[?|?]]; try done. by apply elem_of_nil in Hnil. }
  split; [by rewrite Hsup|]. split; [done|]. split; [done|]. split; [done|].
  rewrite Hsup, !not_elem_of_cons.
  repeat split; try discriminate; apply not_elem_of_nil.
Qed.

End Resolved.

(** C3 (as amended).  A key-down is forwarded to the scene's event bus
    exactly when the controller is enabled and either the scene is not
    focused or the key is supported and not constrained; a disabled
    controller, and a focused scene with an unsupported or constrained
    key, forward nothing.  A key-up forwards nothing: [onkeyup] makes no
    call to a collaborator at all. *)
Theorem key_events_forwarding (e : KeyEvent) (c : Controller) :
  emits_of (emitted c (onkeydown keycode e c))
  = (if isEnabled (state c)
        && (negb (focused (scope c))
            || bool_decide (Some (which e) ∈ supported keycode (state c))
               && negb (constrained (scope c) (which e)))
     then [("keydown", e)] else [])
  /\ emitted c (onkeyup e c) = [].
Proof.
  split.
  - rewrite onkeydown_cases. cbv zeta. rewrite isKeySupported_number.
    destruct (isEnabled (state c)); simpl;
      [|by rewrite emitted_same by apply clearTimeout_trace].
    destruct (focused (scope c)); simpl.
    + destruct (constrained (scope c) (which e)); simpl;
        [rewrite andb_false_r; by rewrite emitted_same by apply clearTimeout_trace|].
      rewrite andb_true_r.
      destruct (bool_decide (Some (which e) ∈ supported keycode (state c)));
        [|by rewrite emitted_same by apply clearTimeout_trace].
      rewrite (emitted_app _ _ [PreventDefault e; Emit "keydown" e]); [done|].
      simpl. rewrite clearTimeout_trace. by rewrite <- app_assoc.
    + rewrite (emitted_app _ _ [Emit "keydown" e]); [done|].
      simpl. by rewrite clearTimeout_trace.
  - apply emitted_same. rewrite onkeyup_cases. by destruct (focused (scope c)).
Qed.

End Properties.

(** C3, as the specification states it, fails: a disabled controller
    forwards no key-down, and a key-up is never forwarded. *)
Lemma key_events_not_always_forwarded :
  (("keydown", key_up_arrow)
     ∉ emits_of (emitted example_disabled
                   (onkeydown keycodes_lookup key_up_arrow example_disabled)))
  /\ (("keyup", key_up_arrow)
      ∉ emits_of (emitted example_controller (onkeyup key_up_arrow example_controller))).
Proof.
  assert (H1 : emits_of (emitted example_disabled
                 (onkeydown keycodes_lookup key_up_arrow example_disabled)) = [])
    by (vm_compute; reflexivity).
  assert (H2 : emits_of (emitted example_controller
                 (onkeyup key_up_arrow example_controller)) = [])
    by (vm_compute; reflexivity).
  rewrite H1, H2. split; apply not_elem_of_nil.
Qed.

(** C9, as the specification states it, fails: the exposed map also names
    [esc], which is not a navigation key. *)
Lemma keycodes_names_escape :
  keycodes_lookup "esc" = Some 27 /\ ("esc" ∉ nav_keynames) /\ length keycodes = 6%nat.
Proof.
  split; [reflexivity|]. split; [|reflexivity].
  unfold nav_keynames. rewrite !not_elem_of_cons. repeat split; try discriminate.
  apply not_elem_of_nil.
Qed.

(** ** The statements at the concrete controller *)

Lemma lookup_resolves : resolves_navigation_keys keycodes_lookup.
Proof. intros nm _. reflexivity. Qed.

Lemma example_reachable : reachable keycodes_lookup 5 example_controller.
Proof.
  apply (reachable_new keycodes_lookup 5 example_scope true false 7). reflexivity.
Qed.

Lemma example_released_reachable : reachable keycodes_lookup 5 example_released.
Proof.
  apply (reachable_step _ _ example_pressed (EKeyUp key_up_arrow)); [|constructor].
  apply (reachable_step _ _ example_controller (EKeyDown key_up_arrow)); [|constructor].
  exact example_reachable.
Qed.

Lemma example_supported :
  supported keycodes_lookup (state example_controller)
  = [Some 38; Some 40; Some 37; Some 39].
Proof. reflexivity. Qed.

(** The escape key is not supported, and pressing it leaves the key state
    as it was. *)
Lemma onkeydown_records_supported_keys_witness :
  (Some (which key_escape) ∉ supported keycodes_lookup (state example_controller))
  /\ keystate (state (onkeydown keycodes_lookup key_escape example_controller))
     = keystate (state example_controller).
Proof.
  assert (Hn : Some (which key_escape)
               ∉ supported keycodes_lookup (state example_controller)).
  { rewrite example_supported, !not_elem_of_cons.
    repeat split; try discriminate. apply not_elem_of_nil. }
  split; [exact Hn|].
  exact (proj2 (onkeydown_records_supported_keys keycodes_lookup key_escape
                  example_controller) Hn).
Defined.

(** With the up arrow held, a tick of the constructed controller pans by
    [{x: 0, y: -5/2}]. *)
Lemma default_bindings_pan_deltas_witness :
  resolves_navigation_keys keycodes_lookup
  /\ exists c', update keycodes_lookup example_pressed = Ok c'
       /\ pans_of (emitted example_pressed c') = [mkPan 0 (- 5 / 2)].
Proof.
  split; [exact lookup_resolves|].
  destruct (default_bindings_pan_deltas keycodes_lookup 5 lookup_resolves
              example_scope true false 7)
    as (c0 & Hok & _ & _ & _ & _ & _ & _ & _ & _ & Htick).
  assert (Hc0 : c0 = example_controller).
  { unfold example_controller. by rewrite Hok. }
  subst c0. destruct (Htick example_pressed) as (c' & Hup & Hpans);
    [reflexivity|reflexivity|].
  exists c'. split; [exact Hup|]. rewrite Hpans. reflexivity.
Defined.

(** A key-up on the focused example scene sets [forceUpdate] and leaves
    exactly the new timer pending. *)
Lemma keyup_schedules_one_release_timer_witness :
  reachable keycodes_lookup 5 example_released
  /\ focused (scope example_released) = true
  /\ forceUpdate (state (onkeyup key_escape example_released)) = true
  /\ pending (timers (onkeyup key_escape example_released))
     = {[ next_id (timers example_released) := mkTimer 500 release ]}.
Proof.
  split; [exact example_released_reachable|]. split; [reflexivity|].
  destruct (keyup_schedules_one_release_timer keycodes_lookup 5 example_released
              key_escape key_escape example_released_reachable eq_refl)
    as (_ & Hfu & _ & Hpd & _).
  split; [exact Hfu|exact Hpd].
Defined.

(** No key of the constructed controller is held, and a tick leaves it as
    it is. *)
Lemma update_without_key_down_witness :
  (forall k, keystate (state example_controller) !! k ≠ Some true)
  /\ update keycodes_lookup example_controller = Ok example_controller.
Proof.
  assert (Hno : forall k, keystate (state example_controller) !! k ≠ Some true).
  { intros k. change (keystate (state example_controller)) with (∅ : gmap Z bool).
    by rewrite lookup_empty. }
  split; [exact Hno|].
  exact (proj1 (proj2 (update_without_key_down keycodes_lookup example_controller Hno))).
Defined.

(** Two handlers registered for "up" on the constructed controller: with
    the up arrow held, a tick invokes the default binding, then the first,
    then the second. *)
Lemma use_twice_invokes_both_in_order_witness :
  reachable keycodes_lookup 5 example_controller
  /\ resolve_key keycodes_lookup (JStr "up") = JNum 38
  /\ Some 38 ∈ supported keycodes_lookup (state example_controller)
  /\ handlers example_extended !! 38
     = Some [up_handler; first_handler; second_handler]
  /\ held (state example_extended_pressed) 38 = true
  /\ exists c4,
       update keycodes_lookup example_extended_pressed = Ok c4
       /\ invoked_for 38 (emitted example_extended_pressed c4)
          = [(0%nat, mkKeyData (Some "up") 38); (10%nat, mkKeyData (Some "up") 38);
             (11%nat, mkKeyData (Some "up") 38)].
Proof.
  assert (Hsup : Some 38 ∈ supported keycodes_lookup (state example_controller)).
  { rewrite example_supported. left. }
  split; [exact example_reachable|]. split; [reflexivity|]. split; [exact Hsup|].
  split; [reflexivity|]. split; [reflexivity|].
  destruct (use_twice_invokes_both_in_order keycodes_lookup 5 lookup_resolves
              example_controller (JStr "up") 38 first_handler second_handler
              example_reachable eq_refl Hsup)
    as (old & c1 & c2 & Hold & H1 & H2 & Hhs & Htick).
  assert (Hold' : old = [up_handler]).
  { change (handlers example_controller !! 38) with (Some [up_handler]) in Hold.
    congruence. }
  assert (Hc2 : c2 = example_extended).
  { unfold example_extended. rewrite H1. cbn [bind]. by rewrite H2. }
  subst old c2.
  destruct (Htick example_extended_pressed) as (c4 & Hup & Hinv);
    [reflexivity|reflexivity|reflexivity|].
  exists c4. split; [exact Hup|]. rewrite Hinv. reflexivity.
Defined.

(** A name the lookup does not know: [use] raises and changes nothing. *)
Lemma use_type_error_iff_witness :
  typeof (resolve_key keycodes_lookup (JStr "foo")) ≠ TNumber
  /\ use keycodes_lookup (JStr "foo") first_handler example_controller
     = Throw (TypeError "Expecting string or number.") example_controller.
Proof.
  assert (Hty : typeof (resolve_key keycodes_lookup (JStr "foo")) ≠ TNumber)
    by discriminate.
  split; [exact Hty|].
  exact (proj1 (proj2 (use_type_error_iff keycodes_lookup (JStr "foo") first_handler
                         example_controller)) Hty).
Defined.

(** The supported codes of the constructed controller. *)
Lemma keycodes_table_and_supported_witness :
  resolves_navigation_keys keycodes_lookup
  /\ reachable keycodes_lookup 5 example_controller
  /\ supported keycodes_lookup (state example_controller)
     = map keycodes_lookup nav_keynames
  /\ (Some 27 ∉ supported keycodes_lookup (state example_controller)).
Proof.
  split; [exact lookup_resolves|]. split; [exact example_reachable|].
  destruct (keycodes_table_and_supported keycodes_lookup 5 lookup_resolves
              example_controller example_reachable)
    as (_ & Hmap & _ & _ & _ & Hesc & _).
  split; [exact Hmap|exact Hesc].
Defined.

(** A key-down while the release timer of the example is pending: the
    timer is gone, and [forceUpdate] is still set after a later tick and a
    key-up on the scene once it has lost focus. *)
Lemma keydown_cancels_release_timer_witness :
  reachable keycodes_lookup 5 example_released
  /\ pending (timers example_released) ≠ ∅
  /\ pending (timers (onkeydown keycodes_lookup key_escape example_released)) = ∅
  /\ forceUpdate (state (onkeydown keycodes_lookup key_escape example_released)) = true
  /\ forall c2,
       quiet_run keycodes_lookup
         (onkeydown keycodes_lookup key_escape example_released)
         [EUpdate; EScene (mkScope false false 500 None); EKeyUp key_up_arrow] c2 ->
       forceUpdate (state c2) = true.
Proof.
  split; [exact example_released_reachable|].
  split.
  { intros Hpd. assert (Hl : pending (timers example_released) !! 7%nat = None)
      by (by rewrite Hpd, lookup_empty).
    discriminate Hl. }
  destruct (keydown_cancels_release_timer keycodes_lookup 5 example_released
              key_escape example_released_reachable)
    as (_ & Hpd & Hfu & _ & Hrun).
  split; [exact Hpd|]. split; [rewrite Hfu; reflexivity|].
  intros c2 Hq. destruct (Hrun _ c2 Hq) as [Hfu2 _]. rewrite Hfu2. reflexivity.
Defined.

(** The run of the statement above exists. *)
Lemma example_quiet_run :
  exists c2,
    quiet_run keycodes_lookup
      (onkeydown keycodes_lookup key_escape example_released)
      [EUpdate; EScene (mkScope false false 500 None); EKeyUp key_up_arrow] c2.
Proof.
  eexists.
  eapply quiet_cons; [reflexivity|apply step_update|].
  eapply quiet_cons; [reflexivity|apply step_scene|].
  eapply quiet_cons; [reflexivity|apply step_keyup|].
  apply quiet_nil.
Qed.


(** ** Further properties of the controller *)

Section Coverage.

Variable keycode : string -> option Z.
Variable DEFAULT_KEY_PAN_SPEED : Q.

Lemma isKeydown_true (s : State) :
  isKeydown s = true <-> exists k, keystate s !! k = Some true.
Proof.
  split.
  - unfold isKeydown. rewrite existsb_exists. intros [[k b] [Hin Hb]].
    simpl in Hb. destruct b; [|done]. exists k.
    by apply list_elem_of_In, elem_of_map_to_list in Hin.
  - intros [k Hk]. apply not_false_iff_true. intros Hf.
    by apply (proj1 (isKeydown_false s) Hf k).
Qed.

Lemma reset_state c :
  state (reset c) = set_keystate ((fun _ => false) <$> keystate (state c)) (state c).
Proof. unfold reset. simpl. by rewrite clearTimeout_state. Qed.

(** X1.  [keyname] inverts the [keycodes] map: it returns a name exactly
    when the map gives that name the code, and [null] exactly when no name
    of the map has the code. *)
Theorem keyname_inverts_keycodes (k : Z) (nm : string) :
  (keyname k = Some nm <-> keycodes_lookup nm = Some k)
  /\ (keyname k = None <-> forall nm', keycodes_lookup nm' ≠ Some k).
Proof.
  assert (Hiff : forall k' nm', keyname k' = Some nm' <-> keycodes_lookup nm' = Some k').
  { intros k' nm'. unfold keyname, keycodes_lookup, keycodes. simpl. split.
    - repeat (match goal with
              | |- context [Z.eqb k' ?v] => destruct (Z.eqb_spec k' v) as [->|?]
              end; [by intros [= <-]|]).
      done.
    - repeat (match goal with
              | |- context [String.eqb nm' ?v] =>
                  destruct (String.eqb_spec nm' v) as [->|?]
              end; [by intros [= <-]|]).
      done. }
  split; [apply Hiff|]. split.
  - intros Hnone nm' Hnm'. apply Hiff in Hnm'. congruence.
  - intros Hno. destruct (keyname k) as [nm'|] eqn:Hk; [|done].
    apply Hiff in Hk. by apply Hno in Hk.
Qed.

(** X2.  [reset] keeps the entries of the key state and sets each of them
    to [false]: afterwards no key is held, [isKeydown] is [false] and a
    tick does nothing.  The registry is untouched and the only call to a
    collaborator is the reset of the base. *)
Theorem reset_releases_every_key (c : Controller) :
  (forall k, keystate (state (reset c)) !! k
             = (fun _ => false) <$> keystate (state c) !! k)
  /\ dom (keystate (state (reset c))) = dom (keystate (state c))
  /\ (forall k, held (state (reset c)) k = false)
  /\ isKeydown (state (reset c)) = false
  /\ update keycode (reset c) = Ok (reset c)
  /\ handlers (reset c) = handlers c
  /\ emitted c (reset c) = [BaseReset].
Proof.
  assert (Hlk : forall k, keystate (state (reset c)) !! k
                          = (fun _ => false) <$> keystate (state c) !! k).
  { intros k. rewrite reset_state. simpl. apply lookup_fmap. }
  assert (Hdown : isKeydown (state (reset c)) = false).
  { apply isKeydown_false. intros k. rewrite Hlk.
    by destruct (keystate (state c) !! k). }
  split; [exact Hlk|]. split; [rewrite reset_state; simpl; apply dom_fmap_L|].
  split; [intros k; by apply not_isKeydown_held|]. split; [exact Hdown|].
  split; [unfold update; by rewrite Hdown|].
  split; [unfold reset; simpl; apply clearTimeout_handlers|].
  apply emitted_app. unfold reset. simpl. by rewrite clearTimeout_trace.
Qed.

(** X3.  [reset] cancels the release timer: on a controller built by the
    constructor nothing is pending afterwards and no timer can fire. *)
Theorem reset_cancels_release_timer (c : Controller) :
  reachable keycode DEFAULT_KEY_PAN_SPEED c ->
  timers (reset c) = timers (clearTimeout (keyupTimeout (state c)) c)
  /\ pending (timers (reset c)) = ∅
  /\ (forall id, fire id (reset c) = None).
Proof.
  intros Hreach. destruct (reachable_wf _ _ c Hreach) as (_ & Hinv & _).
  assert (Htm : timers (reset c) = timers (clearTimeout (keyupTimeout (state c)) c))
    by reflexivity.
  assert (Hpd : pending (timers (reset c)) = ∅).
  { rewrite Htm, clearTimeout_timers. simpl. by apply timer_inv_cleared. }
  split; [exact Htm|]. split; [exact Hpd|].
  intros id. unfold fire. by rewrite Hpd, lookup_empty.
Qed.

(** X4.  [isKeySupported] answers [true] exactly for a key that resolves to
    a number among the supported codes which the constraints do not block.
    A name and its code get the same answer, and a value that is neither a
    string nor a number gets [false]. *)
Theorem isKeySupported_iff (key : jsval) (c : Controller) :
  (isKeySupported keycode key c = true
   <-> exists k, resolve_key keycode key = JNum k
         /\ Some k ∈ supported keycode (state c)
         /\ constrained (scope c) k = false)
  /\ (forall nm k, key = JStr nm -> keycode nm = Some k ->
      isKeySupported keycode key c = isKeySupported keycode (JNum k) c)
  /\ (typeof key ≠ TString -> typeof key ≠ TNumber ->
      isKeySupported keycode key c = false).
Proof.
  split; [|split].
  - unfold isKeySupported. split.
    + destruct (resolve_key keycode key) as [| | |k| |] eqn:Hk; try done.
      destruct (constrained (scope c) k) eqn:Hcon; [done|].
      destruct (Z.eqb_spec (-1) (indexOf (Some k) (supported keycode (state c))))
        as [Heq|Hne]; [done|].
      intros _. exists k. split; [done|]. split; [|done].
      destruct (decide (Some k ∈ supported keycode (state c))) as [|Hn]; [done|].
      apply indexOf_absent in Hn. congruence.
    + intros (k & -> & Hin & ->).
      destruct (Z.eqb_spec (-1) (indexOf (Some k) (supported keycode (state c))))
        as [Heq|Hne]; [|done].
      symmetry in Heq. by apply indexOf_absent in Heq.
  - intros nm k -> Hk. unfold isKeySupported. simpl. by rewrite Hk.
  - intros Hs Hn. unfold isKeySupported. by destruct key.
Qed.

(** X5.  A key event writes the entry of its own key only: every other
    entry of the key state is as before, for a key-down and for a key-up,
    and neither event touches the registry or the pan speed. *)
Theorem key_events_touch_one_key (e : KeyEvent) (c : Controller) (k : Z) :
  k ≠ which e ->
  keystate (state (onkeydown keycode e c)) !! k = keystate (state c) !! k
  /\ keystate (state (onkeyup e c)) !! k = keystate (state c) !! k
  /\ handlers (onkeydown keycode e c) = handlers c
  /\ handlers (onkeyup e c) = handlers c
  /\ panSpeed (state (onkeydown keycode e c)) = panSpeed (state c)
  /\ panSpeed (state (onkeyup e c)) = panSpeed (state c).
Proof.
  intros Hne. rewrite onkeydown_cases, onkeyup_cases. cbv zeta.
  destruct (isEnabled (state c)), (focused (scope c)),
    (isKeySupported keycode (JNum (which e)) c); simpl;
    rewrite ?clearTimeout_state, ?clearTimeout_handlers, ?lookup_insert_ne by done;
    done.
Qed.

Lemma supported_keynames s s' :
  keynames s' = keynames s -> supported keycode s' = supported keycode s.
Proof. unfold supported. by intros ->. Qed.

(** X6.  Only supported keys are ever recorded as held: in every
    controller built by the constructor, whatever happened to it since, an
    entry of the key state that is [true] belongs to a supported code. *)
Theorem only_supported_keys_are_held (c : Controller) (k : Z) :
  reachable keycode DEFAULT_KEY_PAN_SPEED c ->
  keystate (state c) !! k = Some true ->
  Some k ∈ supported keycode (state c).
Proof.
  intros Hreach. revert k.
  induction Hreach as [sc en fo id c Hnew|c ev c' Hreach IH Hstep]; intros k Hk.
  - apply KeyboardController_Ok in Hnew as (_ & Hst & _).
    rewrite Hst in Hk. simpl in Hk. by rewrite lookup_empty in Hk.
  - destruct (reachable_wf _ _ c Hreach) as (_ & _ & Hcb & _).
    destruct Hstep as [c e|c e|c|c|c key fn|c id c' Hfire|c sc|c b|c q].
    + revert Hk. rewrite onkeydown_cases. cbv zeta.
      destruct (isEnabled (state c)); [|rewrite clearTimeout_state; apply IH].
      destruct (focused (scope c)); [|simpl; rewrite clearTimeout_state; apply IH].
      destruct (isKeySupported keycode (JNum (which e)) c) eqn:Hsup;
        [|rewrite clearTimeout_state; apply IH].
      simpl. rewrite clearTimeout_state.
      rewrite (supported_keynames (state c)) by done.
      destruct (decide (k = which e)) as [->|Hne].
      * intros _. rewrite isKeySupported_number in Hsup.
        apply andb_true_iff in Hsup as [_ Hin]. by apply bool_decide_eq_true in Hin.
      * rewrite lookup_insert_ne by done. apply IH.
    + revert Hk. rewrite onkeyup_cases.
      destruct (focused (scope c)); simpl;
        rewrite (supported_keynames (state c)) by done;
        (destruct (decide (k = which e)) as [->|Hne];
         [by rewrite lookup_insert_eq|rewrite lookup_insert_ne by done; apply IH]).
    + destruct (update_frame keycode c) as (_ & Hst & _). rewrite Hst in *. by apply IH.
    + rewrite reset_state in Hk. simpl in Hk. rewrite lookup_fmap in Hk.
      by destruct (keystate (state c) !! k).
    + destruct (use_frame keycode key fn c) as (_ & Hst & _). rewrite Hst in *.
      by apply IH.
    + unfold fire in Hfire. destruct (pending (timers c) !! id) as [t|] eqn:Ht; [|done].
      injection Hfire as <-. simpl in *. rewrite (Hcb id t Ht) in *. by apply IH.
    + by apply IH.
    + by apply IH.
    + by apply IH.
Qed.


(** X8.  The constructor succeeds exactly when the name lookup gives each
    of the four navigation names a number; when it fails it raises the
    [TypeError] of [use]. *)
Theorem constructor_raises_iff (sc : Scope) (enabled force : bool) (first_id : nat) :
  (throws (KeyboardController keycode DEFAULT_KEY_PAN_SPEED sc enabled force first_id)
     = false
   <-> forall nm, nm ∈ nav_keynames -> is_Some (keycode nm))
  /\ (forall err c,
       KeyboardController keycode DEFAULT_KEY_PAN_SPEED sc enabled force first_id
         = Throw err c ->
       err = TypeError "Expecting string or number.").
Proof.
  assert (Hup : "up" ∈ nav_keynames) by (unfold nav_keynames; rewrite !elem_of_cons; auto 10).
  assert (Hdn : "down" ∈ nav_keynames) by (unfold nav_keynames; rewrite !elem_of_cons; auto 10).
  assert (Hlf : "left" ∈ nav_keynames) by (unfold nav_keynames; rewrite !elem_of_cons; auto 10).
  assert (Hrt : "right" ∈ nav_keynames) by (unfold nav_keynames; rewrite !elem_of_cons; auto 10).
  unfold KeyboardController, use. cbn [resolve_key]. cbv zeta.
  destruct (keycode "up") as [ku|] eqn:Hu; simpl.
  2:{ split; [|by intros err c [= <- _]]. split; [done|].
      intros H. destruct (H "up" Hup) as [? ?]. congruence. }
  destruct (keycode "down") as [kd|] eqn:Hd; simpl.
  2:{ split; [|by intros err c [= <- _]]. split; [done|].
      intros H. destruct (H "down" Hdn) as [? ?]. congruence. }
  destruct (keycode "left") as [kl|] eqn:Hl; simpl.
  2:{ split; [|by intros err c [= <- _]]. split; [done|].
      intros H. destruct (H "left" Hlf) as [? ?]. congruence. }
  destruct (keycode "right") as [kr|] eqn:Hr; simpl.
  2:{ split; [|by intros err c [= <- _]]. split; [done|].
      intros H. destruct (H "right" Hrt) as [? ?]. congruence. }
  split; [|done]. split; [|done]. intros _ nm Hnm.
  unfold nav_keynames in Hnm. rewrite !elem_of_cons in Hnm.
  destruct Hnm as [->|[->|[->|[->|Hnil]]]]; [eauto..|by apply elem_of_nil in Hnil].
Qed.



(** X10.  A key-down suppresses the default action of the browser exactly
    when it records the key, and does so before it notifies the event bus;
    on every other path [preventDefault] is not called. *)
Theorem onkeydown_effects (e : KeyEvent) (c : Controller) :
  emitted c (onkeydown keycode e c)
  = if isEnabled (state c) then
      if focused (scope c) then
        if bool_decide (Some (which e) ∈ supported keycode (state c))
           && negb (constrained (scope c) (which e))
        then [PreventDefault e; Emit "keydown" e]
        else []
      else [Emit "keydown" e]
    else [].
Proof.
  rewrite onkeydown_cases. cbv zeta. rewrite isKeySupported_number, andb_comm.
  destruct (isEnabled (state c)); [|by rewrite emitted_same by apply clearTimeout_trace].
  destruct (focused (scope c)).
  - destruct (_ && _); [|by rewrite emitted_same by apply clearTimeout_trace].
    apply emitted_app. simpl. by rewrite clearTimeout_trace, <- app_assoc.
  - apply emitted_app. simpl. by rewrite clearTimeout_trace.
Qed.

Lemma forEach_code_invoked_none k codes c :
  held (state c) k = false \/ Some k ∉ codes ->
  exists es, trace (controller_of (forEach_code codes c)) = (trace c ++ es)%list
    /\ invoked_for k es = [].
Proof.
  revert c. induction codes as [|oc codes IH]; intros c Hk.
  - exists []. simpl. by rewrite app_nil_r.
  - cbn [forEach_code]. destruct (handlers_of c oc) as [[k' l]|] eqn:Hof.
    2:{ exists []. simpl. by rewrite app_nil_r. }
    assert (Hoc : oc = Some k').
    { unfold handlers_of in Hof. destruct oc as [k0|]; [|done].
      destruct (handlers c !! k0); [|done]. by injection Hof as -> _. }
    subst oc.
    destruct (forEach_handle_frame k' l c) as (_ & Hst & _ & _ & Htr).
    destruct (IH (forEach_handle k' l c)) as (es & Htr' & Hes).
    { rewrite Hst. destruct Hk as [Hk|Hk]; [by left|right].
      by apply not_elem_of_cons in Hk as [_ Hk]. }
    exists (handle_effects (state c) k' l ++ es)%list.
    split; [by rewrite Htr', Htr, <- app_assoc|].
    rewrite invoked_for_app, Hes, app_nil_r, invoked_for_handle_effects.
    destruct (Z.eqb_spec k' k) as [->|_]; [|by rewrite andb_false_r].
    destruct Hk as [->|Hk]; [done|]. exfalso. apply Hk. left.
Qed.

(** X11.  [update] invokes handlers only for supported keys that are held:
    for a key that is not held, and for a code that is not one of
    [state.keycodes] (although [use] accepts a handler for any number),
    no handler is invoked. *)
Theorem update_invokes_only_held_supported (c : Controller) (k : Z) :
  held (state c) k = false \/ Some k ∉ state_keycodes keycode (state c) ->
  invoked_for k (emitted c (controller_of (update keycode c))) = [].
Proof.
  intros Hk. unfold update. destruct (isKeydown (state c)); simpl.
  - destruct (forEach_code_invoked_none k _ c Hk) as (es & Htr & Hes).
    destruct (forEach_code (state_keycodes keycode (state c)) c) as [c'|err c'];
      simpl in *.
    + rewrite (emitted_app _ _ (es ++ [BaseUpdate])).
      * by rewrite invoked_for_app, Hes.
      * simpl. by rewrite Htr, <- app_assoc.
    + by rewrite (emitted_app _ _ es).
  - by rewrite emitted_same.
Qed.

(** No operation removes or reorders registered handlers. *)
Lemma step_registry_prefix c ev c' k l :
  step keycode c ev c' -> handlers c !! k = Some l ->
  exists l', handlers c' !! k = Some (l ++ l')%list.
Proof.
  intros Hstep Hl.
  assert (Hsame : forall c0, handlers c0 = handlers c ->
            exists l', handlers c0 !! k = Some (l ++ l')%list).
  { intros c0 ->. exists []. by rewrite app_nil_r. }
  destruct Hstep as [c e|c e|c|c|c key fn|c id c' Hfire|c sc|c b|c q];
    try (by apply Hsame).
  - apply Hsame. by destruct (onkeydown_frame keycode e c) as (_ & Hhs & _).
  - apply Hsame. rewrite onkeyup_cases. by destruct (focused (scope c)).
  - apply Hsame. by destruct (update_frame keycode c) as (_ & _ & Hhs & _).
  - apply Hsame. unfold reset. simpl. apply clearTimeout_handlers.
  - unfold use. destruct (resolve_key keycode key) as [| | |n| |]; try (by apply Hsame).
    simpl. destruct (decide (n = k)) as [->|Hne].
    + exists [fn]. by rewrite lookup_insert_eq, Hl.
    + exists []. by rewrite lookup_insert_ne, app_nil_r.
  - apply Hsame. unfold fire in Hfire.
    destruct (pending (timers c) !! id); [|done]. by injection Hfire as <-.
Qed.

(** X12.  The default bindings are never displaced: in every controller
    built by the constructor, whatever was registered since, the handler
    list of each direction starts with the binding the constructor
    installed, so it is the first to run on a tick. *)
Theorem default_bindings_stay_first (c : Controller) :
  resolves_navigation_keys keycode ->
  reachable keycode DEFAULT_KEY_PAN_SPEED c ->
  exists lu ld ll lr,
    handlers c !! 38 = Some (up_handler :: lu)
    /\ handlers c !! 40 = Some (down_handler :: ld)
    /\ handlers c !! 37 = Some (left_handler :: ll)
    /\ handlers c !! 39 = Some (right_handler :: lr).
Proof.
  intros Hres Hreach.
  induction Hreach as [sc en fo id c Hnew|c ev c' Hreach IH Hstep].
  - rewrite (KeyboardController_resolved _ _ Hres) in Hnew. injection Hnew as <-.
    by exists [], [], [], [].
  - destruct IH as (lu & ld & ll & lr & Hu & Hd & Hl & Hr).
    destruct (step_registry_prefix _ _ _ _ _ Hstep Hu) as [lu' Hu'].
    destruct (step_registry_prefix _ _ _ _ _ Hstep Hd) as [ld' Hd'].
    destruct (step_registry_prefix _ _ _ _ _ Hstep Hl) as [ll' Hl'].
    destruct (step_registry_prefix _ _ _ _ _ Hstep Hr) as [lr' Hr'].
    by exists (lu ++ lu')%list, (ld ++ ld')%list, (ll ++ ll')%list, (lr ++ lr')%list.
Qed.

(** X13.  The only timer that can fire is the one [state.keyupTimeout]
    refers to, and all it does is clear [forceUpdate]: the key state, the
    registry and the trace are as before, and nothing is pending
    afterwards. *)
Theorem release_timer_only_clears_forceUpdate (c : Controller) (id : nat) (c' : Controller) :
  reachable keycode DEFAULT_KEY_PAN_SPEED c ->
  fire id c = Some c' ->
  keyupTimeout (state c) = Some id
  /\ state c' = set_forceUpdate false (state c)
  /\ pending (timers c') = ∅
  /\ handlers c' = handlers c
  /\ trace c' = trace c.
Proof.
  intros Hreach Hfire. destruct (reachable_wf _ _ c Hreach) as (_ & Hinv & Hcb & _).
  unfold fire in Hfire. destruct (pending (timers c) !! id) as [t|] eqn:Ht; [|done].
  injection Hfire as <-. simpl. rewrite (Hcb id t Ht).
  assert (Hkt : keyupTimeout (state c) = Some id) by (apply Hinv; eauto).
  do 2 (split; [done|]). split; [|done].
  pose proof (timer_inv_cleared c Hinv) as Hcl. by rewrite Hkt in Hcl.
Qed.

(** X14.  After a key-up some key is still down exactly when a key other
    than the released one was down before. *)
Theorem isKeydown_after_keyup (e : KeyEvent) (c : Controller) :
  isKeydown (state (onkeyup e c)) = true
  <-> exists k, k ≠ which e /\ keystate (state c) !! k = Some true.
Proof.
  assert (Hks : keystate (state (onkeyup e c))
                = <[which e := false]> (keystate (state c))).
  { rewrite onkeyup_cases. by destruct (focused (scope c)). }
  rewrite isKeydown_true, Hks. split.
  - intros [k Hk]. exists k. destruct (decide (k = which e)) as [->|Hne].
    + by rewrite lookup_insert_eq in Hk.
    + by rewrite lookup_insert_ne in Hk.
  - intros (k & Hne & Hk). exists k. by rewrite lookup_insert_ne.
Qed.

Lemma elem_of_handle_effects h d s k l :
  Invoke h d ∈ handle_effects s k l ->
  d = mkKeyData (keyname k) k /\ held s k = true.
Proof.
  unfold handle_effects. destruct (held s k); [|by intros ?%elem_of_nil].
  induction l as [|h0 l IH]; [by intros ?%elem_of_nil|].
  cbn [flat_map app]. rewrite elem_of_cons, elem_of_app.
  intros [[= _ ->]|[Hin|Hin]]; [done| |by apply IH].
  apply list_elem_of_fmap in Hin as (? & ? & _). done.
Qed.

Lemma elem_of_code_effects h d s hs codes :
  Invoke h d ∈ code_effects s hs codes ->
  exists k, Some k ∈ codes /\ d = mkKeyData (keyname k) k /\ held s k = true.
Proof.
  unfold code_effects. induction codes as [|oc codes IH]; [by intros ?%elem_of_nil|].
  cbn [flat_map]. rewrite elem_of_app. intros [Hin|Hin].
  - destruct oc as [k|]; [|by apply elem_of_nil in Hin].
    destruct (hs !! k) as [l|]; [|by apply elem_of_nil in Hin].
    apply elem_of_handle_effects in Hin as [-> Hheld].
    exists k. split; [left|done].
  - destruct (IH Hin) as (k & Hk & Hd). exists k. split; [by right|done].
Qed.

(** X15.  Every handler [update] invokes is given the code of a held
    navigation key together with its name: the [name] of the data is never
    [null]. *)
Theorem update_passes_key_name (c : Controller) (h : nat) (d : KeyData) :
  resolves_navigation_keys keycode ->
  reachable keycode DEFAULT_KEY_PAN_SPEED c ->
  Invoke h d ∈ emitted c (controller_of (update keycode c)) ->
  exists nm, nm ∈ nav_keynames
    /\ name d = Some nm
    /\ keycode nm = Some (code d)
    /\ held (state c) (code d) = true.
Proof.
  intros Hres Hreach Hin.
  destruct (reachable_wf _ _ c Hreach) as (Hkn & _ & _ & Hb).
  destruct (resolved_codes keycode Hres) as (Hu & Hd & Hl & Hr).
  destruct (isKeydown (state c)) eqn:Hdown.
  - destruct (update_bound keycode c Hdown) as (c' & Hok & Hem).
    { intros oc Hoc. unfold state_keycodes in Hoc.
      apply list_elem_of_fmap in Hoc as (nm & -> & Hnm). by apply Hb. }
    rewrite Hok in Hin. simpl in Hin. rewrite Hem in Hin.
    apply elem_of_app in Hin as [Hin|Hin].
    2:{ apply list_elem_of_singleton in Hin. done. }
    apply elem_of_code_effects in Hin as (k & Hk & -> & Hheld).
    rewrite (resolved_keycodes keycode Hres _ Hkn) in Hk. simpl.
    unfold nav_keynames. rewrite !elem_of_cons in Hk.
    destruct Hk as [[= ->]|[[= ->]|[[= ->]|[[= ->]|Hnil]]]];
      [| | | |by apply elem_of_nil in Hnil].
    + exists "up". rewrite !elem_of_cons. auto 10.
    + exists "down". rewrite !elem_of_cons. auto 10.
    + exists "left". rewrite !elem_of_cons. auto 10.
    + exists "right". rewrite !elem_of_cons. auto 10.
  - unfold update in Hin. rewrite Hdown in Hin. simpl in Hin.
    rewrite emitted_same in Hin by done. by apply elem_of_nil in Hin.
Qed.

(** X16.  A repeated key-down of the same key (as the browser sends while
    a key stays pressed) changes nothing further: the state, the timers
    and the registry after the second event are those after the first. *)
Theorem onkeydown_repeat (e : KeyEvent) (c : Controller) :
  state (onkeydown keycode e (onkeydown keycode e c)) = state (onkeydown keycode e c)
  /\ timers (onkeydown keycode e (onkeydown keycode e c)) = timers (onkeydown keycode e c)
  /\ handlers (onkeydown keycode e (onkeydown keycode e c)) = handlers c.
Proof.
  assert (Hst : forall c0, state (onkeydown keycode e c0)
            = if isEnabled (state c0) && focused (scope c0)
                 && isKeySupported keycode (JNum (which e)) c0
              then set_keystate (<[which e := true]> (keystate (state c0))) (state c0)
              else state c0).
  { intros c0. rewrite onkeydown_cases. cbv zeta.
    destruct (isEnabled (state c0)), (focused (scope c0)),
      (isKeySupported keycode (JNum (which e)) c0); simpl;
      by rewrite clearTimeout_state. }
  assert (Htm : forall c0, timers (onkeydown keycode e c0)
            = mkTimers (next_id (timers c0))
                (cleared (keyupTimeout (state c0)) (pending (timers c0)))).
  { intros c0. destruct (onkeydown_frame keycode e c0) as (_ & _ & _ & _ & ->).
    apply clearTimeout_timers. }
  destruct (onkeydown_frame keycode e c) as (Hsc & Hhs & _ & Hkt & _).
  destruct (onkeydown_frame keycode e (onkeydown keycode e c)) as (_ & Hhs' & _).
  assert (Hsup : isKeySupported keycode (JNum (which e)) (onkeydown keycode e c)
                 = isKeySupported keycode (JNum (which e)) c).
  { rewrite !isKeySupported_number, Hsc. f_equal. unfold supported. rewrite (Hst c).
    by destruct (_ && _). }
  split; [|split].
  - rewrite (Hst (onkeydown keycode e c)), Hsc, Hsup, (Hst c).
    destruct (isEnabled (state c)) eqn:Hen; simpl; [|by rewrite Hen].
    destruct (focused (scope c)); simpl; [|by rewrite Hen].
    destruct (isKeySupported keycode (JNum (which e)) c); simpl; rewrite Hen; simpl;
      [|done].
    unfold set_keystate. simpl. by rewrite insert_insert_eq.
  - rewrite (Htm (onkeydown keycode e c)), Hkt, (Htm c). simpl. f_equal.
    destruct (keyupTimeout (state c)) as [id|]; simpl; [|done].
    apply delete_id, lookup_delete_eq.
  - by rewrite Hhs'.
Qed.

Lemma forEach_handle_scope k l sc c :
  forEach_handle k l (set_scope sc c) = set_scope sc (forEach_handle k l c).
Proof.
  revert c. induction l as [|h l IH]; intros c; [done|].
  cbn [forEach_handle]. cbv zeta.
  change (state (set_scope sc c)) with (state c).
  destruct (held (state c) k); [|apply IH].
  change (call h (mkKeyData (keyname k) k) (set_scope sc c))
    with (set_scope sc (call h (mkKeyData (keyname k) k) c)).
  apply IH.
Qed.

Lemma forEach_code_scope codes sc c :
  forEach_code codes (set_scope sc c)
  = match forEach_code codes c with
    | Ok c' => Ok (set_scope sc c')
    | Throw err c' => Throw err (set_scope sc c')
    end.
Proof.
  revert c. induction codes as [|oc codes IH]; intros c; [done|].
  cbn [forEach_code].
  change (handlers_of (set_scope sc c) oc) with (handlers_of c oc).
  destruct (handlers_of c oc) as [[k l]|]; [|done].
  by rewrite forEach_handle_scope, IH.
Qed.

(** X17.  [update] never consults the scene: with another focus, timeout
    or constraint table it raises or succeeds alike and adds the same
    effects.  So a held key keeps running its handlers on every tick after
    the scene lost focus or the key became constrained, until its key-up. *)
Theorem update_ignores_scene (sc : Scope) (c : Controller) :
  update keycode (set_scope sc c)
  = match update keycode c with
    | Ok c' => Ok (set_scope sc c')
    | Throw err c' => Throw err (set_scope sc c')
    end
  /\ emitted (set_scope sc c) (controller_of (update keycode (set_scope sc c)))
     = emitted c (controller_of (update keycode c)).
Proof.
  assert (Hup : update keycode (set_scope sc c)
                = match update keycode c with
                  | Ok c' => Ok (set_scope sc c')
                  | Throw err c' => Throw err (set_scope sc c')
                  end).
  { unfold update. change (state (set_scope sc c)) with (state c).
    destruct (Bool.eqb false (isKeydown (state c))); [done|].
    rewrite forEach_code_scope.
    by destruct (forEach_code (state_keycodes keycode (state c)) c). }
  split; [exact Hup|]. rewrite Hup.
  by destruct (update keycode c).
Qed.

(** X18.  Registrations for different codes do not interfere: two [use]
    calls for distinct codes give the same controller in either order. *)
Theorem use_distinct_codes_commute (k1 k2 : Z) (h1 h2 : Handler) (c : Controller) :
  k1 ≠ k2 ->
  use keycode (JNum k1) h1 c >>= use keycode (JNum k2) h2
  = use keycode (JNum k2) h2 c >>= use keycode (JNum k1) h1.
Proof.
  intros Hne. unfold use. simpl.
  rewrite !lookup_insert_ne by done. unfold set_handlers. simpl.
  by rewrite insert_insert_ne.
Qed.

(** X19.  A second [reset] changes nothing but the trace: the state, the
    timers and the registry after two resets are those after one. *)
Theorem reset_twice (c : Controller) :
  state (reset (reset c)) = state (reset c)
  /\ timers (reset (reset c)) = timers (reset c)
  /\ handlers (reset (reset c)) = handlers (reset c)
  /\ emitted c (reset (reset c)) = [BaseReset; BaseReset].
Proof.
  destruct c as [sc [en fu kt kn ks ps] hs [nx pd] tr].
  unfold reset. destruct kt as [id|]; simpl.
  - rewrite <- map_fmap_compose.
    rewrite (delete_id (delete id pd)) by apply lookup_delete_eq.
    do 3 (split; [done|]). apply emitted_app. simpl. by rewrite <- app_assoc.
  - rewrite <- map_fmap_compose.
    do 3 (split; [done|]). apply emitted_app. simpl. by rewrite <- app_assoc.
Qed.

End Coverage.

(** ** The further properties at the concrete controller *)

Lemma example_pressed_reachable : reachable keycodes_lookup 5 example_pressed.
Proof.
  apply (reachable_step _ _ example_controller (EKeyDown key_up_arrow)); [|constructor].
  exact example_reachable.
Qed.

Lemma example_extended_reachable : reachable keycodes_lookup 5 example_extended.
Proof.
  apply (reachable_step _ _
           (controller_of (use keycodes_lookup (JStr "up") first_handler
                             example_controller))
           (EUse (JStr "up") second_handler)).
  - apply (reachable_step _ _ example_controller (EUse (JStr "up") first_handler));
      [exact example_reachable|constructor].
  - exact (step_use keycodes_lookup _ (JStr "up") second_handler).
Qed.

(** A reset while the release timer of the example is pending. *)
Lemma reset_cancels_release_timer_witness :
  reachable keycodes_lookup 5 example_released
  /\ pending (timers example_released) ≠ ∅
  /\ pending (timers (reset example_released)) = ∅.
Proof.
  split; [exact example_released_reachable|]. split.
  { intros Hpd. assert (Hl : pending (timers example_released) !! 7%nat = None)
      by (by rewrite Hpd, lookup_empty).
    discriminate Hl. }
  exact (proj1 (proj2 (reset_cancels_release_timer keycodes_lookup 5 example_released
                         example_released_reachable))).
Defined.

(** Pressing the up arrow leaves the entry of the down arrow alone. *)
Lemma key_events_touch_one_key_witness :
  40 ≠ which key_up_arrow
  /\ keystate (state (onkeydown keycodes_lookup key_up_arrow example_controller)) !! 40
     = keystate (state example_controller) !! 40.
Proof.
  assert (Hne : 40 ≠ which key_up_arrow) by discriminate.
  split; [exact Hne|].
  exact (proj1 (key_events_touch_one_key keycodes_lookup key_up_arrow
                  example_controller 40 Hne)).
Defined.

(** The up arrow is held in the example, and it is supported. *)
Lemma only_supported_keys_are_held_witness :
  reachable keycodes_lookup 5 example_pressed
  /\ keystate (state example_pressed) !! 38 = Some true
  /\ Some 38 ∈ supported keycodes_lookup (state example_pressed).
Proof.
  split; [exact example_pressed_reachable|]. split; [reflexivity|].
  exact (only_supported_keys_are_held keycodes_lookup 5 example_pressed 38
           example_pressed_reachable eq_refl).
Defined.



(** With only the up arrow held, nothing is invoked for the down arrow. *)
Lemma update_invokes_only_held_supported_witness :
  (held (state example_extended_pressed) 40 = false
   \/ Some 40 ∉ state_keycodes keycodes_lookup (state example_extended_pressed))
  /\ invoked_for 40 (emitted example_extended_pressed
                       (controller_of (update keycodes_lookup example_extended_pressed)))
     = [].
Proof.
  assert (Hk : held (state example_extended_pressed) 40 = false
               \/ Some 40 ∉ state_keycodes keycodes_lookup
                               (state example_extended_pressed))
    by (left; reflexivity).
  split; [exact Hk|].
  exact (update_invokes_only_held_supported keycodes_lookup example_extended_pressed
           40 Hk).
Defined.

(** After two more registrations for "up" the default binding is still
    the first of its list. *)
Lemma default_bindings_stay_first_witness :
  resolves_navigation_keys keycodes_lookup
  /\ reachable keycodes_lookup 5 example_extended
  /\ exists lu, handlers example_extended !! 38 = Some (up_handler :: lu).
Proof.
  split; [exact lookup_resolves|]. split; [exact example_extended_reachable|].
  destruct (default_bindings_stay_first keycodes_lookup 5 example_extended
              lookup_resolves example_extended_reachable)
    as (lu & _ & _ & _ & Hu & _).
  exists lu. exact Hu.
Defined.

(** The release timer of the example fires. *)
Lemma release_timer_only_clears_forceUpdate_witness :
  reachable keycodes_lookup 5 example_released
  /\ fire 7 example_released = Some example_fired
  /\ forceUpdate (state example_released) = true
  /\ state example_fired = set_forceUpdate false (state example_released)
  /\ pending (timers example_fired) = ∅.
Proof.
  assert (Hfire : fire 7 example_released = Some example_fired) by reflexivity.
  split; [exact example_released_reachable|]. split; [exact Hfire|].
  split; [reflexivity|].
  destruct (release_timer_only_clears_forceUpdate keycodes_lookup 5 example_released
              7%nat example_fired example_released_reachable Hfire)
    as (_ & Hst & Hpd & _).
  split; [exact Hst|exact Hpd].
Defined.

(** The handler invoked for the held up arrow is given its name. *)
Lemma update_passes_key_name_witness :
  resolves_navigation_keys keycodes_lookup
  /\ reachable keycodes_lookup 5 example_pressed
  /\ (Invoke 0 (mkKeyData (Some "up") 38)
      ∈ emitted example_pressed (controller_of (update keycodes_lookup example_pressed)))
  /\ exists nm, nm ∈ nav_keynames /\ Some nm = Some "up"
       /\ keycodes_lookup nm = Some 38.
Proof.
  assert (Hin : Invoke 0 (mkKeyData (Some "up") 38)
                ∈ emitted example_pressed
                    (controller_of (update keycodes_lookup example_pressed))).
  { change (emitted example_pressed
              (controller_of (update keycodes_lookup example_pressed)))
      with [Invoke 0 (mkKeyData (Some "up") 38); Pan (mkPan 0 (- 5 / 2)); BaseUpdate].
    left. }
  split; [exact lookup_resolves|]. split; [exact example_pressed_reachable|].
  split; [exact Hin|].
  destruct (update_passes_key_name keycodes_lookup 5 example_pressed 0%nat
              (mkKeyData (Some "up") 38) lookup_resolves example_pressed_reachable Hin)
    as (nm & Hnm & Hname & Hcode & _).
  exists nm. simpl in Hname. symmetry in Hname. auto.
Defined.

(** Handlers for the up and the down arrow, registered in either order. *)
Lemma use_distinct_codes_commute_witness :
  38 ≠ 40
  /\ use keycodes_lookup (JNum 38) first_handler example_controller
       >>= use keycodes_lookup (JNum 40) second_handler
     = use keycodes_lookup (JNum 40) second_handler example_controller
         >>= use keycodes_lookup (JNum 38) first_handler.
Proof.
  assert (Hne : 38 ≠ 40) by discriminate.
  split; [exact Hne|].
  exact (use_distinct_codes_commute keycodes_lookup 38 40 first_handler second_handler
           example_controller Hne).
Defined.
